(** * GUI_Utils: window metrics, DPI resolution, window-ready notification
      and the checkbox file dialog of src/slic3r/GUI/GUI_Utils.cpp.

    The development embeds each function of the translation unit as a Rocq
    function and proves the properties its specification states.  The C++
    [int] is a 32-bit two's complement integer, kept as a [Z] together with
    its wrap-around; strings are [String.string]. *)

From Stdlib Require Import ZArith Lia Bool List String Ascii.
From Stdlib Require Import DecimalString DecimalZ Decimal.
Import ListNotations.

Local Open Scope string_scope.
Local Open Scope Z_scope.

(** ** The C++ [int] *)

Module Int.

Definition INT_MIN : Z := - 2 ^ 31.
Definition INT_MAX : Z := 2 ^ 31 - 1.

(** Values an [int] object can hold. *)
Definition in_range (z : Z) : Prop := INT_MIN <= z <= INT_MAX.

(** Two's complement reduction of a mathematical result to 32 bits. *)
Definition wrap (z : Z) : Z := (z + 2 ^ 31) mod 2 ^ 32 - 2 ^ 31.

Definition add (a b : Z) : Z := wrap (a + b).
Definition sub (a b : Z) : Z := wrap (a - b).
Definition mul (a b : Z) : Z := wrap (a * b).
(** [/] on [int] rounds towards zero. *)
Definition div (a b : Z) : Z := wrap (Z.quot a b).

(** [std::min(a, b)] is [(b < a) ? b : a]. *)
Definition min (a b : Z) : Z := if b <? a then b else a.

(** [static_cast<int>(bool)]. *)
Definition of_bool (b : bool) : Z := if b then 1 else 0.

End Int.

(** ** wxRect (wxWidgets, gdicmn.h / gdicmn.cpp) *)

Record wxRect : Type := mk_wxRect {
  x : Z;
  y : Z;
  width : Z;
  height : Z
}.

Module WxRect.

(** [GetRight() { return x + width - 1; }] *)
Definition GetRight (r : wxRect) : Z := Int.sub (Int.add (x r) (width r)) 1.

(** [GetBottom() { return y + height - 1; }] *)
Definition GetBottom (r : wxRect) : Z := Int.sub (Int.add (y r) (height r)) 1.

(** [wxRect::Intersect(const wxRect&)] of the wxWidgets library: the two
    corners are clipped against the argument, the extents recomputed, and an
    empty result has both extents reset to zero. *)
Definition Intersect (this rect : wxRect) : wxRect :=
  let x2 := GetRight this in
  let y2 := GetBottom this in
  let x1 := if x this <? x rect then x rect else x this in
  let y1 := if y this <? y rect then y rect else y this in
  let x2 := if GetRight rect <? x2 then GetRight rect else x2 in
  let y2 := if GetBottom rect <? y2 then GetBottom rect else y2 in
  let w := Int.add (Int.sub x2 x1) 1 in
  let h := Int.add (Int.sub y2 y1) 1 in
  if (w <=? 0) || (h <=? 0)
  then mk_wxRect x1 y1 0 0
  else mk_wxRect x1 y1 w h.

End WxRect.

(** ** Text conversions used by the (de)serializer *)

Module Text.

(** Stream insertion of an [int], as [boost::format] performs it for a [%N%]
    directive in the classic locale: base 10, a leading [-] for negative
    values, no padding and no digit grouping. *)
Definition int_to_string (z : Z) : string :=
  NilZero.string_of_int (Z.to_int z).

(** The digit loop of [boost::lexical_cast]: the text must be a non-empty
    run of decimal digits whose value fits the unsigned 32-bit type. *)
Definition lcast_ret_unsigned (s : string) : option Z :=
  match NilZero.uint_of_string s with
  | None => None
  | Some d =>
      let v := Z.of_uint d in
      if v <=? 2 ^ 32 - 1 then Some v else None
  end.

(** [boost::lexical_cast<int>(const std::string&)]: an optional sign, then
    digits up to the end of the text, then the range check of the signed
    type.  [None] stands for [boost::bad_lexical_cast]. *)
Definition lexical_cast_int (s : string) : option Z :=
  match s with
  | EmptyString => None
  | String c rest =>
      let has_minus := Ascii.eqb c "-" in
      let digits := if has_minus || Ascii.eqb c "+" then rest else s in
      match lcast_ret_unsigned digits with
      | None => None
      | Some v =>
          if has_minus
          then if v <=? 2 ^ 31 then Some (Int.wrap (0 - v)) else None
          else if v <=? Int.INT_MAX then Some v else None
      end
  end.

(** Modelled from the spec: [unescape_strings_cstyle] of libslic3r/Config.cpp
    is not part of the sources at hand.  The specification has the
    deserializer split its input on the delimiter the serializer writes, a
    semicolon followed by a space; it names no concrete escape syntax, so
    none is modelled and the split itself reports success.  The result is
    the success flag together with the tokens appended to [out]. *)
Fixpoint split_fields (s : string) : list string :=
  match s with
  | EmptyString => [EmptyString]
  | String c rest =>
      let same_field :=
        match split_fields rest with
        | [] => [String c EmptyString]
        | tok :: toks => String c tok :: toks
        end in
      if Ascii.eqb c ";" then
        match rest with
        | String c' rest' =>
            if Ascii.eqb c' " " then EmptyString :: split_fields rest'
            else same_field
        | EmptyString => same_field
        end
      else same_field
  end.

Definition unescape_strings_cstyle (str : string) : bool * list string :=
  (true, split_fields str).

(** Texts that contain no semicolon. *)
Fixpoint no_semicolon (s : string) : bool :=
  match s with
  | EmptyString => true
  | String c rest => negb (Ascii.eqb c ";") && no_semicolon rest
  end.

End Text.

(** ** WindowMetrics *)

Record WindowMetrics : Type := mk_WindowMetrics {
  rect : wxRect;
  maximized : bool
}.

Module Metrics.

(** [WindowMetrics::serialize]: the format string
    ["%1%; %2%; %3%; %4%; %5%"] fed with the four rectangle fields and the
    flag converted to [int]. *)
Definition serialize (m : WindowMetrics) : string :=
  Text.int_to_string (x (rect m)) ++ "; " ++
  Text.int_to_string (y (rect m)) ++ "; " ++
  Text.int_to_string (width (rect m)) ++ "; " ++
  Text.int_to_string (height (rect m)) ++ "; " ++
  Text.int_to_string (Int.of_bool (maximized m)).

(** The [try] block of [deserialize]: the tokens are converted in order and
    the first failing conversion abandons the loop. *)
Fixpoint cast_loop (metrics_str : list string) : option (list Z) :=
  match metrics_str with
  | [] => Some []
  | tok :: toks =>
      match Text.lexical_cast_int tok with
      | None => None
      | Some v =>
          match cast_loop toks with
          | None => None
          | Some vs => Some (v :: vs)
          end
      end
  end.

(** [WindowMetrics::deserialize]. *)
Definition deserialize (str : string) : option WindowMetrics :=
  let '(ok, metrics_str) := Text.unescape_strings_cstyle str in
  if negb ok || negb (Nat.eqb (List.length metrics_str) 5) then None
  else
    match cast_loop metrics_str with
    | None => None
    | Some metrics =>
        let m4 := nth 4 metrics 0 in
        let m4 := if negb (Z.land m4 (Z.lnot 1) =? 0) then 0 else m4 in
        Some (mk_WindowMetrics
                (mk_wxRect (nth 0 metrics 0) (nth 1 metrics 0)
                           (nth 2 metrics 0) (nth 3 metrics 0))
                (negb (m4 =? 0)))
    end.

(** [WindowMetrics::sanitize_for_display]. *)
Definition sanitize_for_display (m : WindowMetrics) (screen_rect : wxRect)
  : WindowMetrics :=
  let r := WxRect.Intersect (rect m) screen_rect in
  let rx := Int.min (x r)
              (Int.add (x screen_rect)
                       (Int.div (Int.mul 4 (width screen_rect)) 5)) in
  let ry := Int.min (y r)
              (Int.add (y screen_rect)
                       (Int.div (Int.mul 4 (height screen_rect)) 5)) in
  mk_WindowMetrics (mk_wxRect rx ry (width r) (height r)) (maximized m).

(** Failure of [deserialize] as the specification words it: the result is
    empty exactly when the split does not give five tokens or one of the
    first four tokens is no integer. *)
Definition fails_as_worded (str : string) : Prop :=
  let tokens := snd (Text.unescape_strings_cstyle str) in
  deserialize str = None <->
  (List.length tokens <> 5%nat \/
   exists i, (i < 4)%nat /\ Text.lexical_cast_int (nth i tokens "") = None).

(** Two rectangles that share no pixel: one lies wholly to one side of the
    other.  A rectangle covers the columns [x .. x + width - 1]. *)
Definition disjoint (r s : wxRect) : Prop :=
  x r + width r <= x s \/ x s + width s <= x r \/
  y r + height r <= y s \/ y s + height s <= y r.

(** Rectangles far enough from the limits of [int] that no corner or extent
    computed from two of them overflows. *)
Definition within_limits (r : wxRect) : Prop :=
  - 2 ^ 29 <= x r <= 2 ^ 29 /\ - 2 ^ 29 <= y r <= 2 ^ 29 /\
  0 <= width r <= 2 ^ 29 /\ 0 <= height r <= 2 ^ 29.

(** The fields of a [wxRect] are [int] objects. *)
Definition int_fields (r : wxRect) : Prop :=
  Int.in_range (x r) /\ Int.in_range (y r) /\
  Int.in_range (width r) /\ Int.in_range (height r).

End Metrics.

(** ** Target platforms

    The translation unit selects one body per function with the preprocessor
    ([_WIN32], [__linux__], [__APPLE__]). *)

Inductive Platform : Type := Win32 | Linux | Apple.

(** ** DPI resolution *)

Module Dpi.

Definition HWND := nat.
Definition HMONITOR := nat.
Definition HDC := nat.
Definition HINSTANCE := nat.
Definition FARPROC := nat.

(** The part of a [wxWindow] the resolver reads. *)
Record wxWindow : Type := mk_wxWindow { GetHandle : HWND }.

(** The Windows API as the resolver sees it.  A null handle or a null
    function address is [None].  Calling through a resolved address is
    [call_GetDpiForWindow] and [call_GetDpiForMonitor]; the latter yields the
    [HRESULT] and the two [UINT] out-parameters. *)
Record WinApi : Type := mk_WinApi {
  LoadLibraryExW : string -> option HINSTANCE;
  GetProcAddress : HINSTANCE -> string -> option FARPROC;
  GetDesktopWindow : HWND;
  MonitorFromWindow : HWND -> Z -> HMONITOR;
  GetDC : HWND -> option HDC;
  GetDeviceCaps : HDC -> Z -> Z;
  call_GetDpiForWindow : FARPROC -> HWND -> Z;
  call_GetDpiForMonitor : FARPROC -> HMONITOR -> Z -> Z * Z * Z
}.

Definition S_OK : Z := 0.
Definition LOGPIXELSX : Z := 88.
Definition MONITOR_DEFAULTTONEAREST : Z := 2.
Definition MDT_EFFECTIVE_DPI_ : Z := 0.

(** The strong types that instantiate [winapi_get_function]. *)
Inductive FnType : Type := GetDpiForWindow_t | GetDpiForMonitor_t.

(** A dynamic lookup performed against the platform. *)
Inductive Probe : Type :=
| ProbeLibrary (dll : string)
| ProbeSymbol (fn_name : string).

(** The function-local statics of the process.  An outer [None] is a static
    whose initializer has not run yet.  [dll_handle] is the static of
    [winapi_get_function], one object per instantiation.  [probes] is a
    ghost log of the lookups performed so far, oldest first. *)
Record Statics : Type := mk_Statics {
  dll_handle : FnType -> option (option HINSTANCE);
  GetDpiForWindow_fn : option (option FARPROC);
  GetDpiForMonitor_fn : option (option FARPROC);
  probes : list Probe
}.

Definition process_start : Statics :=
  mk_Statics (fun _ => None) None None [].

Definition FnType_eqb (a b : FnType) : bool :=
  match a, b with
  | GetDpiForWindow_t, GetDpiForWindow_t => true
  | GetDpiForMonitor_t, GetDpiForMonitor_t => true
  | _, _ => false
  end.

Definition set_dll_handle (F : FnType) (h : option HINSTANCE) (st : Statics)
  : Statics :=
  mk_Statics (fun G => if FnType_eqb G F then Some h else dll_handle st G)
             (GetDpiForWindow_fn st) (GetDpiForMonitor_fn st) (probes st).

Definition log_probe (p : Probe) (st : Statics) : Statics :=
  mk_Statics (dll_handle st) (GetDpiForWindow_fn st) (GetDpiForMonitor_fn st)
             (probes st ++ [p]).

(** [winapi_get_function<F>(dll, fn_name)]. *)
Definition winapi_get_function (api : WinApi) (F : FnType)
  (dll fn_name : string) (st : Statics) : option FARPROC * Statics :=
  let '(handle, st) :=
    match dll_handle st F with
    | Some h => (h, st)
    | None =>
        let h := LoadLibraryExW api dll in
        (h, set_dll_handle F h (log_probe (ProbeLibrary dll) st))
    end in
  match handle with
  | None => (None, st)
  | Some h => (GetProcAddress api h fn_name, log_probe (ProbeSymbol fn_name) st)
  end.

Definition init_GetDpiForWindow_fn (api : WinApi) (st : Statics)
  : option FARPROC * Statics :=
  match GetDpiForWindow_fn st with
  | Some f => (f, st)
  | None =>
      let '(f, st) :=
        winapi_get_function api GetDpiForWindow_t "User32.dll"
                            "GetDpiForWindow" st in
      (f, mk_Statics (dll_handle st) (Some f) (GetDpiForMonitor_fn st)
                     (probes st))
  end.

Definition init_GetDpiForMonitor_fn (api : WinApi) (st : Statics)
  : option FARPROC * Statics :=
  match GetDpiForMonitor_fn st with
  | Some f => (f, st)
  | None =>
      let '(f, st) :=
        winapi_get_function api GetDpiForMonitor_t "Shcore.dll"
                            "GetDpiForMonitor" st in
      (f, mk_Statics (dll_handle st) (GetDpiForWindow_fn st) (Some f)
                     (probes st))
  end.

Section Resolver.

(** [DPI_DEFAULT] is declared in GUI_Utils.hpp, which is not among the
    sources at hand; it is a parameter of the resolver. *)
Variable DPI_DEFAULT : Z.

(** The fallback chain of the [_WIN32] body, once both statics hold. *)
Definition win32_chain (api : WinApi) (fnW fnM : option FARPROC)
  (window : option wxWindow) : Z :=
  let hwnd :=
    match window with
    | None => GetDesktopWindow api
    | Some w => GetHandle w
    end in
  match fnW with
  | Some f => call_GetDpiForWindow api f hwnd
  | None =>
      match fnM with
      | Some f =>
          let monitor := MonitorFromWindow api hwnd MONITOR_DEFAULTTONEAREST in
          let '(hr, dpiX, _) :=
            call_GetDpiForMonitor api f monitor MDT_EFFECTIVE_DPI_ in
          if hr =? S_OK then Int.wrap dpiX else DPI_DEFAULT
      | None =>
          match GetDC api hwnd with
          | None => DPI_DEFAULT
          | Some hdc => GetDeviceCaps api hdc LOGPIXELSX
          end
      end
  end.

(** [get_dpi_for_window]; [None] is the null window pointer. *)
Definition get_dpi_for_window (platform : Platform) (api : WinApi)
  (window : option wxWindow) (st : Statics) : Z * Statics :=
  match platform with
  | Win32 =>
      let '(fnW, st) := init_GetDpiForWindow_fn api st in
      let '(fnM, st) := init_GetDpiForMonitor_fn api st in
      (win32_chain api fnW fnM window, st)
  | Linux => (DPI_DEFAULT, st)
  | Apple => (DPI_DEFAULT, st)
  end.

(** A process that calls the resolver for each window of [calls] in turn;
    the results are collected oldest first. *)
Fixpoint run_calls (platform : Platform) (api : WinApi)
  (calls : list (option wxWindow)) (st : Statics) : list Z * Statics :=
  match calls with
  | [] => ([], st)
  | w :: rest =>
      let '(r, st) := get_dpi_for_window platform api w st in
      let '(rs, st) := run_calls platform api rest st in
      (r :: rs, st)
  end.

End Resolver.



(** A Windows 10 machine: both libraries load and export their symbol. *)
Definition windows10 : WinApi :=
  mk_WinApi
    (fun dll => if String.eqb dll "User32.dll" then Some 1%nat
                else if String.eqb dll "Shcore.dll" then Some 2%nat
                else None)
    (fun h fn_name =>
       if String.eqb fn_name "GetDpiForWindow" then Some 10%nat
       else if String.eqb fn_name "GetDpiForMonitor" then Some 20%nat
       else None)
    0%nat (fun _ _ => 0%nat) (fun _ => Some 0%nat) (fun _ _ => 96)
    (fun _ hwnd => if Nat.eqb hwnd 0 then 96 else 120)
    (fun _ _ _ => (0, 144, 144)).

(** A machine older than Windows 8.1: neither symbol can be resolved. *)
Definition windows7 : WinApi :=
  mk_WinApi
    (fun dll => if String.eqb dll "User32.dll" then Some 1%nat else None)
    (fun _ _ => None)
    0%nat (fun _ _ => 0%nat) (fun _ => Some 0%nat) (fun _ _ => 96)
    (fun _ _ => 96)
    (fun _ _ _ => (0, 96, 96)).

(** The lookups each of the two statics may trigger. *)
Definition window_probes : list Probe :=
  [ProbeLibrary "User32.dll"; ProbeSymbol "GetDpiForWindow"].

Definition monitor_probes : list Probe :=
  [ProbeLibrary "Shcore.dll"; ProbeSymbol "GetDpiForMonitor"].

(** No lookup has been repeated, and a static whose initializer has not run
    has caused no lookup yet. *)
Definition probe_invariant (st : Statics) : Prop :=
  NoDup (probes st) /\
  (GetDpiForWindow_fn st = None ->
   forall p, In p window_probes -> ~ In p (probes st)) /\
  (GetDpiForMonitor_fn st = None ->
   forall p, In p monitor_probes -> ~ In p (probes st)).


End Dpi.

(** ** Window-ready notification *)

Module Notifier.

(** The caller's callback is opaque; it is identified by a tag and its run
    is observed in the trace. *)
Definition Callback := nat.

(** Body of the inner lambda, the one handed to [CallAfter]. *)
Inductive Deferred : Type :=
| DCallback (cb : Callback).

(** Body of the event handler lambdas. *)
Inductive Stmt : Type :=
| SCallback (cb : Callback)
| SCallAfter (body : list Deferred)
| SSkip.

Inductive Obs : Type :=
| ObsCallback (cb : Callback)
| ObsHandlerEnter
| ObsHandlerReturn (skipped : bool)
| ObsLoopIteration.

(** A top-level window inside the toolkit's event loop: the handlers bound
    to [wxEVT_SHOW] (latest binding first), the queue filled by [CallAfter],
    and the observations made so far, oldest first. *)
Record World : Type := mk_World {
  show_handlers : list (list Stmt);
  pending : list (list Deferred);
  trace : list Obs
}.

Definition observe (o : Obs) (w : World) : World :=
  mk_World (show_handlers w) (pending w) (trace w ++ [o]).

(** [callback()]: the run of the caller's function is observed. *)
Definition run_callback (cb : Callback) (w : World) : World :=
  observe (ObsCallback cb) w.

(** [tlw->Bind(wxEVT_SHOW, handler)]. *)
Definition Bind (handler : list Stmt) (w : World) : World :=
  mk_World (handler :: show_handlers w) (pending w) (trace w).

(** One statement of a lambda body; the flag is the event's skip flag. *)
Definition exec_stmt (s : Stmt) (st : World * bool) : World * bool :=
  let '(w, skipped) := st in
  match s with
  | SCallback cb => (run_callback cb w, skipped)
  | SCallAfter body =>
      (mk_World (show_handlers w) (pending w ++ [body]) (trace w), skipped)
  | SSkip => (w, true)
  end.

Definition exec_body (body : list Stmt) (st : World * bool) : World * bool :=
  fold_left (fun acc s => exec_stmt s acc) body st.

(** The toolkit calling one handler with a fresh event object. *)
Definition run_handler (handler : list Stmt) (w : World) : World * bool :=
  let '(w, skipped) := exec_body handler (observe ObsHandlerEnter w, false) in
  (observe (ObsHandlerReturn skipped) w, skipped).

(** Propagation of the event along the handlers: the next handler is tried
    only when the previous one skipped the event. *)
Fixpoint propagate (handlers : list (list Stmt)) (w : World) : World :=
  match handlers with
  | [] => w
  | h :: rest =>
      let '(w, skipped) := run_handler h w in
      if skipped then propagate rest w else w
  end.

(** The window receives [wxEVT_SHOW]. *)
Definition show_event (w : World) : World := propagate (show_handlers w) w.

(** One further iteration of the event loop: the closures queued before the
    iteration run, outside of any event handler. *)
Definition exec_deferred (w : World) (d : Deferred) : World :=
  match d with
  | DCallback cb => run_callback cb w
  end.

Definition loop_iteration (w : World) : World :=
  let queued := pending w in
  let w := observe ObsLoopIteration
             (mk_World (show_handlers w) [] (trace w)) in
  fold_left (fun acc body => fold_left exec_deferred body acc) queued w.

(** [on_window_geometry]. *)
Definition on_window_geometry (platform : Platform) (callback : Callback)
  (tlw : World) : World :=
  match platform with
  | Win32 => run_callback callback tlw
  | Linux => Bind [SCallAfter [DCallback callback]; SSkip] tlw
  | Apple => Bind [SCallback callback; SSkip] tlw
  end.

(** Nesting depth of handler calls at which each callback run of a trace
    happened; depth [0] is outside every handler. *)
Fixpoint callback_depths (depth : nat) (tr : list Obs)
  : list (Callback * nat) :=
  match tr with
  | [] => []
  | ObsCallback cb :: rest => (cb, depth) :: callback_depths depth rest
  | ObsHandlerEnter :: rest => callback_depths (S depth) rest
  | ObsHandlerReturn _ :: rest => callback_depths (Nat.pred depth) rest
  | ObsLoopIteration :: rest => callback_depths depth rest
  end.

Definition fresh_window : World := mk_World [] [] [].

End Notifier.

(** ** CheckboxFileDialog *)

Module Checkbox.

(** [CheckboxFileDialog::ExtraPanel]: the label and the value of its
    [cbox]. *)
Record ExtraPanel : Type := mk_ExtraPanel {
  cbox_label : string;
  cbox_value : bool
}.

(** What [GetExtraControl()] may point to. *)
Inductive Control : Type :=
| CtlExtraPanel (panel : ExtraPanel)
| CtlOther.

(** The only creator function of the translation unit. *)
Inductive Creator : Type := ExtraPanel_ctor_fn.

(** The dialog: its own member, the two members of [wxFileDialogBase] the
    code touches, and a ghost log of what each invocation of the creator
    on behalf of this dialog returned, oldest first. *)
Record CheckboxFileDialog : Type := mk_Dialog {
  checkbox_label : string;
  m_extraControlCreator : option Creator;
  m_extraControl : option Control;
  creator_calls : list Control
}.

(** The window handed to the creator. *)
Inductive Parent : Type :=
| ParentDialog (dlg : CheckboxFileDialog)
| ParentDummy.

(** [dynamic_cast<CheckboxFileDialog*>(parent)]. *)
Definition as_dialog (parent : Parent) : option CheckboxFileDialog :=
  match parent with
  | ParentDialog dlg => Some dlg
  | ParentDummy => None
  end.

(** [cbox->SetValue(v)]. *)
Definition SetValue (p : ExtraPanel) (v : bool) : ExtraPanel :=
  mk_ExtraPanel (cbox_label p) v.

(** [ExtraPanel::ExtraPanel(wxWindow *parent)]: a new [wxCheckBox] is
    unchecked until [SetValue] is called. *)
Definition ExtraPanel_new (parent : Parent) : ExtraPanel :=
  let label :=
    match as_dialog parent with
    | Some dlg => checkbox_label dlg
    | None => "String long enough to contain dlg->checkbox_label"
    end in
  let this := mk_ExtraPanel label false in
  SetValue this true.

(** [ExtraPanel::ctor]. *)
Definition ExtraPanel_ctor (parent : Parent) : Control :=
  CtlExtraPanel (ExtraPanel_new parent).

(** [String.IsEmpty()]. *)
Definition IsEmpty (s : string) : bool :=
  match s with EmptyString => true | _ => false end.

(** [wxFileDialogBase::SetExtraControlCreator]. *)
Definition SetExtraControlCreator (c : Creator) (d : CheckboxFileDialog)
  : CheckboxFileDialog :=
  mk_Dialog (checkbox_label d) (Some c) (m_extraControl d) (creator_calls d).

(** The constructor; the arguments forwarded unchanged to [wxFileDialog]
    are left out. *)
Definition CheckboxFileDialog_new (label : string) (checkbox_value : bool)
  : CheckboxFileDialog :=
  let this := mk_Dialog label None None [] in
  if IsEmpty label then this
  else SetExtraControlCreator ExtraPanel_ctor_fn this.

(** [dynamic_cast<ExtraPanel*>(GetExtraControl())]. *)
Definition as_extra_panel (c : option Control) : option ExtraPanel :=
  match c with
  | Some (CtlExtraPanel p) => Some p
  | _ => None
  end.

(** [CheckboxFileDialog::get_checkbox_value]. *)
Definition get_checkbox_value (d : CheckboxFileDialog) : bool :=
  match as_extra_panel (m_extraControl d) with
  | Some extra_panel => cbox_value extra_panel
  | None => false
  end.

(** The toolkit invoking an installed creator. *)
Definition invoke (c : Creator) (parent : Parent) : Control :=
  match c with ExtraPanel_ctor_fn => ExtraPanel_ctor parent end.

(** [wxFileDialogBase::CreateExtraControl], run when the dialog is shown.
    With [measure] the toolkit first calls the creator on a dummy dialog to
    learn the control's size and drops the result. *)
Definition CreateExtraControl (measure : bool) (d : CheckboxFileDialog)
  : CheckboxFileDialog :=
  match m_extraControlCreator d, m_extraControl d with
  | Some c, None =>
      let sized := if measure then [invoke c ParentDummy] else [] in
      let control := invoke c (ParentDialog d) in
      mk_Dialog (checkbox_label d) (m_extraControlCreator d)
                (Some control)
                (creator_calls d ++ sized ++ [control])
  | _, _ => d
  end.

(** The user clicking the checkbox, when there is one. *)
Definition click (d : CheckboxFileDialog) : CheckboxFileDialog :=
  match m_extraControl d with
  | Some (CtlExtraPanel p) =>
      mk_Dialog (checkbox_label d) (m_extraControlCreator d)
                (Some (CtlExtraPanel (SetValue p (negb (cbox_value p)))))
                (creator_calls d)
  | _ => d
  end.

Inductive DialogEvent : Type :=
| EvShow (measure : bool)
| EvClick.

Definition step (d : CheckboxFileDialog) (e : DialogEvent)
  : CheckboxFileDialog :=
  match e with
  | EvShow measure => CreateExtraControl measure d
  | EvClick => click d
  end.

Definition run (events : list DialogEvent) (d : CheckboxFileDialog)
  : CheckboxFileDialog :=
  fold_left step events d.

(** A control that is an [ExtraPanel] whose checkbox is checked. *)
Definition checked_panel (c : Control) : Prop :=
  exists p, c = CtlExtraPanel p /\ cbox_value p = true.

End Checkbox.

(** ** Top-level parent lookup *)

Module Toplevel.

(** What [find_toplevel_parent] reads of a window: the answer of the virtual
    [IsTopLevel()] and whether the object is a [wxTopLevelWindow], that is
    whether [dynamic_cast<wxTopLevelWindow*>] succeeds on it. *)
Record Attrs : Type := mk_Attrs {
  ident : nat;
  IsTopLevel : bool;
  is_wxTopLevelWindow : bool
}.

(** A window together with its chain of parents; [Orphan] has a null
    parent. *)
Inductive wxWindow : Type :=
| Orphan (a : Attrs)
| Child (a : Attrs) (parent : wxWindow).

Definition attrs (w : wxWindow) : Attrs :=
  match w with
  | Orphan a => a
  | Child a _ => a
  end.

Definition GetParent (w : wxWindow) : option wxWindow :=
  match w with
  | Orphan _ => None
  | Child _ parent => Some parent
  end.

(** [dynamic_cast<wxTopLevelWindow*>(window)]. *)
Definition as_toplevel (w : wxWindow) : option wxWindow :=
  if is_wxTopLevelWindow (attrs w) then Some w else None.

(** The loop of [find_toplevel_parent], entered with a non-null window. *)
Fixpoint find_from (window : wxWindow) : option wxWindow :=
  if IsTopLevel (attrs window) then as_toplevel window
  else
    match window with
    | Orphan _ => None
    | Child _ parent => find_from parent
    end.

(** [find_toplevel_parent]; [None] is the null pointer. *)
Definition find_toplevel_parent (window : option wxWindow)
  : option wxWindow :=
  match window with
  | None => None
  | Some w => find_from w
  end.

(** A window followed by its parents, nearest first. *)
Fixpoint lineage (w : wxWindow) : list wxWindow :=
  w :: match w with
       | Orphan _ => []
       | Child _ parent => lineage parent
       end.

Definition top_level (w : wxWindow) : bool := IsTopLevel (attrs w).

Definition not_top (w : wxWindow) : Prop := top_level w = false.

End Toplevel.

(** ** Capturing a window's metrics *)

Module Capture.

(** What [from_window] reads of a [wxTopLevelWindow]. *)
Record wxTopLevelWindow : Type := mk_wxTopLevelWindow {
  GetScreenRect : wxRect;
  IsMaximized : bool
}.

(** [WindowMetrics::from_window]. *)
Definition from_window (window : wxTopLevelWindow) : WindowMetrics :=
  mk_WindowMetrics (GetScreenRect window) (IsMaximized window).

(** The multiplications [4*width] and [4*height] of the threshold do not
    overflow. *)
Definition threshold_defined (screen_rect : wxRect) : Prop :=
  4 * width screen_rect <= Int.INT_MAX /\
  4 * height screen_rect <= Int.INT_MAX.

(** A rectangle that needs no correction for a screen: it lies inside the
    screen rectangle, its top-left corner is within four fifths of the
    screen's extents from the screen's origin, and its extents are both
    positive or both zero. *)
Definition settled (r screen_rect : wxRect) : Prop :=
  x screen_rect <= x r <= x screen_rect + 4 * width screen_rect / 5 /\
  y screen_rect <= y r <= y screen_rect + 4 * height screen_rect / 5 /\
  x r + width r <= x screen_rect + width screen_rect /\
  y r + height r <= y screen_rect + height screen_rect /\
  ((width r = 0 /\ height r = 0) \/ (0 < width r /\ 0 < height r)).

End Capture.

(** ** Reading a numeral without bounds *)

Module Numeral.

(** The integer a text denotes when it is read with unbounded arithmetic:
    an optional sign followed by a non-empty run of decimal digits. *)
Definition numeral_value (tok : string) : option Z :=
  match tok with
  | EmptyString => None
  | String c rest =>
      if Ascii.eqb c "-"
      then option_map (fun d => - Z.of_uint d) (NilZero.uint_of_string rest)
      else if Ascii.eqb c "+"
      then option_map Z.of_uint (NilZero.uint_of_string rest)
      else option_map Z.of_uint (NilZero.uint_of_string tok)
  end.

End Numeral.

(** ** What the DPI resolver computes, without the statics *)

Module DpiModel.

Import Dpi.

(** A library load followed by a symbol lookup, with nothing cached. *)
Definition lookup (api : WinApi) (dll fn_name : string) : option FARPROC :=
  match LoadLibraryExW api dll with
  | None => None
  | Some h => GetProcAddress api h fn_name
  end.

(** The window handle the resolver queries. *)
Definition hwnd_of (api : WinApi) (window : option wxWindow) : HWND :=
  match window with
  | None => GetDesktopWindow api
  | Some w => GetHandle w
  end.

(** The fallback chain applied to freshly looked-up capabilities. *)
Definition resolve (DPI_DEFAULT : Z) (api : WinApi)
  (window : option wxWindow) : Z :=
  win32_chain DPI_DEFAULT api
    (lookup api "User32.dll" "GetDpiForWindow")
    (lookup api "Shcore.dll" "GetDpiForMonitor") window.

(** The library each instantiation is called with by the resolver. *)
Definition dll_of (F : FnType) : string :=
  match F with
  | GetDpiForWindow_t => "User32.dll"
  | GetDpiForMonitor_t => "Shcore.dll"
  end.

(** Every static that has been initialized holds what a fresh lookup against
    the platform gives. *)
Definition consistent (api : WinApi) (st : Statics) : Prop :=
  (forall F, dll_handle st F = None \/
             dll_handle st F = Some (LoadLibraryExW api (dll_of F))) /\
  (GetDpiForWindow_fn st = None \/
   GetDpiForWindow_fn st
   = Some (lookup api "User32.dll" "GetDpiForWindow")) /\
  (GetDpiForMonitor_fn st = None \/
   GetDpiForMonitor_fn st
   = Some (lookup api "Shcore.dll" "GetDpiForMonitor")).

(** The platform's answers for one window handle are DPI values: positive
    and within [int]. *)
Definition answers_dpi_for (api : WinApi) (hwnd : HWND) : Prop :=
  (forall f, 0 < call_GetDpiForWindow api f hwnd) /\
  (forall f hr dpiX dpiY,
      call_GetDpiForMonitor api f
        (MonitorFromWindow api hwnd MONITOR_DEFAULTTONEAREST)
        MDT_EFFECTIVE_DPI_ = (hr, dpiX, dpiY) ->
      hr = S_OK -> 0 < dpiX <= Int.INT_MAX) /\
  (forall hdc, GetDC api hwnd = Some hdc ->
               0 < GetDeviceCaps api hdc LOGPIXELSX).

(** A Windows 10 machine as the platform documents it: [GetDpiForWindow]
    answers 0 for a handle that is no window, here the null handle [0] of a
    [wxWindow] whose native window has not been created. *)
Definition windows10_null_handle : WinApi :=
  mk_WinApi (LoadLibraryExW windows10) (GetProcAddress windows10)
    1%nat (fun _ _ => 0%nat) (fun _ => Some 0%nat) (fun _ _ => 96)
    (fun _ hwnd => if Nat.eqb hwnd 0 then 0 else 96)
    (fun _ _ _ => (0, 96, 96)).

(** A machine on which no library loads and no device context can be
    obtained. *)
Definition bare_machine : WinApi :=
  mk_WinApi (fun _ => None) (fun _ _ => None)
    0%nat (fun _ _ => 0%nat) (fun _ => None) (fun _ _ => 120)
    (fun _ _ => 120) (fun _ _ _ => (0, 120, 120)).

End DpiModel.

(** ** Runs of the window-ready notification *)

Module NotifierRuns.

Import Notifier.

(** The callbacks a trace saw running, oldest first. *)
Fixpoint callbacks_run (tr : list Obs) : list Callback :=
  match tr with
  | [] => []
  | ObsCallback cb :: rest => cb :: callbacks_run rest
  | _ :: rest => callbacks_run rest
  end.

(** The handlers [on_window_geometry] binds on Linux and on macOS. *)
Definition linux_body (cb : Callback) : list Stmt :=
  [SCallAfter [DCallback cb]; SSkip].

Definition apple_body (cb : Callback) : list Stmt := [SCallback cb; SSkip].

(** The window is shown [n] times, each time followed by one iteration of
    the event loop. *)
Fixpoint show_cycles (n : nat) (w : World) : World :=
  match n with
  | O => w
  | S k => show_cycles k (loop_iteration (show_event w))
  end.

(** [on_window_geometry] called once per callback of [cbs], in order, on the
    same window. *)
Definition register_all (platform : Platform) (cbs : list Callback)
  (w : World) : World :=
  fold_left (fun acc cb => on_window_geometry platform cb acc) cbs w.

End NotifierRuns.

(** * Properties *)

(** ** Arithmetic on [int] *)

Lemma wrap_id (z : Z) : Int.in_range z -> Int.wrap z = z.
Proof.
  unfold Int.in_range, Int.INT_MIN, Int.INT_MAX, Int.wrap. intros H.
  rewrite Z.mod_small; lia.
Qed.

Lemma wrap_in_range (z : Z) : Int.in_range (Int.wrap z).
Proof.
  unfold Int.in_range, Int.INT_MIN, Int.INT_MAX, Int.wrap.
  pose proof (Z.mod_pos_bound (z + 2 ^ 31) (2 ^ 32)). lia.
Qed.

(** Above [INT_MIN] the reduction can only lower a value. *)
Lemma wrap_le (z : Z) : Int.INT_MIN <= z -> Int.wrap z <= z.
Proof.
  unfold Int.INT_MIN, Int.wrap. intros H.
  pose proof (Z.mod_le (z + 2 ^ 31) (2 ^ 32)). lia.
Qed.

Lemma min_le_r (a b : Z) : Int.min a b <= b.
Proof. unfold Int.min. destruct (Z.ltb_spec b a); lia. Qed.

(** Clearing bit 0 leaves zero exactly for the values 0 and 1. *)
Lemma land_lnot_1 (m : Z) : Z.land m (Z.lnot 1) = 2 * (m / 2).
Proof.
  apply Z.bits_inj'. intros n Hn.
  rewrite Z.land_spec, Z.lnot_spec by assumption.
  destruct (Z.eq_dec n 0) as [-> | Hpos].
  - rewrite Z.testbit_even_0. cbn. apply andb_false_r.
  - replace n with (Z.succ (Z.pred n)) by lia.
    rewrite Z.testbit_even_succ by lia.
    rewrite <- Z.div2_div, Z.div2_spec, Z.shiftr_spec by lia.
    replace (Z.testbit 1 (Z.succ (Z.pred n))) with false.
    + cbn. rewrite andb_true_r. f_equal. 
    + symmetry. apply Z.bits_above_log2; cbn; lia.
Qed.

Lemma flag_check (m : Z) :
  negb ((if negb (Z.land m (Z.lnot 1) =? 0) then 0 else m) =? 0) = (m =? 1).
Proof.
  rewrite land_lnot_1.
  destruct (Z.eqb_spec (2 * (m / 2)) 0) as [E | E]; cbn.
  - assert (m = 0 \/ m = 1) as [-> | ->] by (Z.div_mod_to_equations; lia);
      reflexivity.
  - destruct (Z.eqb_spec m 1) as [-> | _]; [ | reflexivity ].
    exfalso. apply E. reflexivity.
Qed.

(** ** Splitting and number conversion *)

Section Splitting.

Import Text.

Lemma split_fields_single (t : string) :
  no_semicolon t = true -> split_fields t = [t].
Proof.
  induction t as [ | c t IH]; cbn [no_semicolon split_fields].
  - reflexivity.
  - intros H. apply andb_prop in H as [Hc Ht].
    apply negb_true_iff in Hc. rewrite Hc, (IH Ht). reflexivity.
Qed.

Lemma split_fields_app (t rest : string) :
  no_semicolon t = true ->
  split_fields (t ++ "; " ++ rest)%string = t :: split_fields rest.
Proof.
  induction t as [ | c t IH]; cbn [no_semicolon].
  - reflexivity.
  - intros H. apply andb_prop in H as [Hc Ht].
    apply negb_true_iff in Hc.
    change (String c t ++ "; " ++ rest)%string
      with (String c (t ++ "; " ++ rest)%string).
    cbn [split_fields]. rewrite Hc, (IH Ht). reflexivity.
Qed.

Lemma uint_text_no_semicolon (d : uint) :
  no_semicolon (NilEmpty.string_of_uint d) = true.
Proof. induction d; cbn; auto. Qed.

Lemma int_to_string_no_semicolon (z : Z) :
  no_semicolon (int_to_string z) = true.
Proof.
  unfold int_to_string.
  destruct (Z.to_int z) as [d | d]; cbn [NilZero.string_of_int];
    destruct d; cbn; auto using uint_text_no_semicolon.
Qed.

(** A non-empty digit sequence prints to a text that starts with a digit,
    hence with neither sign character. *)
Lemma uint_text_head (d : uint) :
  d <> Nil ->
  exists c rest,
    NilZero.string_of_uint d = String c rest /\
    Ascii.eqb c "-" = false /\ Ascii.eqb c "+" = false.
Proof.
  destruct d; intros H; try congruence; cbn; eexists; eexists; eauto.
Qed.

Lemma lcast_ret_unsigned_pos (p : positive) :
  Z.pos p <= 2 ^ 32 - 1 ->
  lcast_ret_unsigned (NilZero.string_of_uint (Pos.to_uint p)) = Some (Z.pos p).
Proof.
  intros H. unfold lcast_ret_unsigned.
  rewrite NilZero.usu by apply DecimalPos.Unsigned.to_uint_nonnil.
  unfold Z.of_uint. rewrite DecimalPos.Unsigned.of_to. cbn [Z.of_N].
  destruct (Z.leb_spec (Z.pos p) (2 ^ 32 - 1)); [reflexivity | lia].
Qed.

Lemma lexical_cast_int_to_string (z : Z) :
  Int.in_range z -> lexical_cast_int (int_to_string z) = Some z.
Proof.
  unfold Int.in_range, Int.INT_MIN, Int.INT_MAX. intros Hz.
  destruct z as [ | p | p]; unfold int_to_string; cbn [Z.to_int].
  - reflexivity.
  - cbn [NilZero.string_of_int].
    destruct (uint_text_head (Pos.to_uint p)) as (c & rest & E & Hm & Hp);
      [apply DecimalPos.Unsigned.to_uint_nonnil | ].
    unfold lexical_cast_int. rewrite E, Hm, Hp. cbn [orb]. rewrite <- E.
    rewrite lcast_ret_unsigned_pos by lia.
    unfold Int.INT_MAX.
    destruct (Z.leb_spec (Z.pos p) (2 ^ 31 - 1)); [reflexivity | lia].
  - cbn [NilZero.string_of_int]. unfold lexical_cast_int.
    rewrite Ascii.eqb_refl. cbn [orb].
    rewrite lcast_ret_unsigned_pos by lia.
    destruct (Z.leb_spec (Z.pos p) (2 ^ 31)); [ | lia].
    rewrite wrap_id; [reflexivity | ].
    unfold Int.in_range, Int.INT_MIN, Int.INT_MAX. lia.
Qed.

(** A value that [lexical_cast<int>] returns is a value of [int]. *)
Lemma lexical_cast_int_range (s : string) (v : Z) :
  lexical_cast_int s = Some v -> Int.in_range v.
Proof.
  unfold lexical_cast_int. destruct s as [ | c rest]; [discriminate | ].
  destruct (lcast_ret_unsigned _) as [u | ] eqn:E; [ | discriminate].
  assert (0 <= u) as Hu.
  { unfold lcast_ret_unsigned in E.
    destruct (NilZero.uint_of_string _) as [d | ]; [ | discriminate].
    destruct (Z.of_uint d <=? 2 ^ 32 - 1); [ | discriminate].
    injection E as <-. unfold Z.of_uint. apply N2Z.is_nonneg. }
  destruct (Ascii.eqb c "-").
  - destruct (Z.leb_spec u (2 ^ 31)); [ | discriminate].
    intros [= <-]. apply wrap_in_range.
  - destruct (Z.leb_spec u Int.INT_MAX); [ | discriminate].
    intros [= <-]. unfold Int.in_range, Int.INT_MIN, Int.INT_MAX in *. lia.
Qed.

End Splitting.

(** ** WindowMetrics: serialization *)

Section Serialization.

Import Text Metrics.

(** C1.  Reading back what [serialize] wrote gives the metrics that were
    written: for every [WindowMetrics] whose rectangle fields are [int]
    values, [deserialize (serialize m)] succeeds with [m] itself, the flag
    included. *)
Theorem deserialize_serialize_roundtrip (m : WindowMetrics) :
  int_fields (rect m) -> deserialize (serialize m) = Some m.
Proof.
  destruct m as [[mx my mw mh] mflag].
  unfold int_fields; cbn [rect x y width height].
  intros (Hx & Hy & Hw & Hh).
  unfold deserialize, serialize, unescape_strings_cstyle.
  cbn [rect maximized x y width height].
  repeat rewrite split_fields_app by apply int_to_string_no_semicolon.
  rewrite split_fields_single by apply int_to_string_no_semicolon.
  cbn [List.length Nat.eqb negb orb cast_loop].
  rewrite !lexical_cast_int_to_string by assumption.
  assert (Int.in_range (Int.of_bool mflag)) as Hf
    by (destruct mflag; cbv; split; discriminate).
  rewrite (lexical_cast_int_to_string _ Hf).
  cbn [nth]. rewrite flag_check.
  destruct mflag; reflexivity.
Qed.

Lemma deserialize_serialize_roundtrip_witness :
  let m := mk_WindowMetrics (mk_wxRect (-8) 31 1280 720) true in
  int_fields (rect m) /\ deserialize (serialize m) = Some m.
Proof.
  intros m.
  assert (int_fields (rect m)) as H
    by (unfold int_fields, Int.in_range; cbn; lia).
  split; [exact H | exact (deserialize_serialize_roundtrip m H)].
Defined.

(** The general shape of a successful [deserialize]: five tokens, each one
    accepted by [lexical_cast<int>]. *)
Lemma deserialize_five_tokens (str t0 t1 t2 t3 t4 : string)
  (m0 m1 m2 m3 m4 : Z) :
  unescape_strings_cstyle str = (true, [t0; t1; t2; t3; t4]) ->
  lexical_cast_int t0 = Some m0 -> lexical_cast_int t1 = Some m1 ->
  lexical_cast_int t2 = Some m2 -> lexical_cast_int t3 = Some m3 ->
  lexical_cast_int t4 = Some m4 ->
  deserialize str
  = Some (mk_WindowMetrics (mk_wxRect m0 m1 m2 m3) (m4 =? 1)).
Proof.
  intros Hs H0 H1 H2 H3 H4. unfold deserialize. rewrite Hs.
  cbn [List.length Nat.eqb negb orb cast_loop].
  rewrite H0, H1, H2, H3, H4. cbn [nth]. rewrite flag_check. reflexivity.
Qed.

(** C2.  When all five tokens of the input parse as integers, [deserialize]
    succeeds and the flag of the result is true if and only if the fifth
    integer is exactly 1; every other value, negative ones and values with a
    higher bit set included, gives a successful parse with the flag false.
    In particular ["10; 20; 300; 400; 3"] reads as not maximized and
    ["10; 20; 300; 400; 1"] as maximized. *)
Theorem deserialize_maximized_iff_one :
  (forall (str t0 t1 t2 t3 t4 : string) (m0 m1 m2 m3 m4 : Z),
      unescape_strings_cstyle str = (true, [t0; t1; t2; t3; t4]) ->
      lexical_cast_int t0 = Some m0 -> lexical_cast_int t1 = Some m1 ->
      lexical_cast_int t2 = Some m2 -> lexical_cast_int t3 = Some m3 ->
      lexical_cast_int t4 = Some m4 ->
      exists res,
        deserialize str = Some res /\
        rect res = mk_wxRect m0 m1 m2 m3 /\
        (maximized res = true <-> m4 = 1)) /\
  deserialize "10; 20; 300; 400; 3"
  = Some (mk_WindowMetrics (mk_wxRect 10 20 300 400) false) /\
  deserialize "10; 20; 300; 400; 1"
  = Some (mk_WindowMetrics (mk_wxRect 10 20 300 400) true).
Proof.
  split; [ | split; reflexivity].
  intros str t0 t1 t2 t3 t4 m0 m1 m2 m3 m4 Hs H0 H1 H2 H3 H4.
  eexists. split; [eapply deserialize_five_tokens; eassumption | ].
  cbn [rect maximized]. split; [reflexivity | ].
  apply Z.eqb_eq.
Qed.

Lemma deserialize_maximized_iff_one_witness :
  exists res,
    deserialize "0; -5; 640; 480; -2" = Some res /\
    rect res = mk_wxRect 0 (-5) 640 480 /\
    (maximized res = true <-> -2 = 1).
Proof.
  apply (proj1 deserialize_maximized_iff_one
           "0; -5; 640; 480; -2" "0" "-5" "640" "480" "-2");
    reflexivity.
Defined.

(** Failure of the conversion loop is failure of one of the conversions. *)
Lemma cast_loop_none (toks : list string) :
  cast_loop toks = None <->
  exists tok, In tok toks /\ lexical_cast_int tok = None.
Proof.
  induction toks as [ | t toks IH]; cbn [cast_loop In].
  - split; [discriminate | intros (tok & [] & _)].
  - destruct (lexical_cast_int t) as [v | ] eqn:Et.
    + destruct (cast_loop toks) as [vs | ].
      * split; [discriminate | ].
        intros (tok & [<- | Hin] & Hn); [congruence | ].
        assert (Some vs = None) by (apply IH; eauto). discriminate.
      * split; [ | reflexivity]. intros _.
        destruct (proj1 IH eq_refl) as (tok & Hin & Hn). eauto.
    + split; [eauto | reflexivity].
Qed.

(** On ["1; 2; 3; 4; x"] the result is empty although the split gives five
    tokens and the first four are integers: the fifth conversion fails. *)
Lemma deserialize_fifth_token_counterexample :
  ~ fails_as_worded "1; 2; 3; 4; x".
Proof.
  unfold fails_as_worded. intros [Hfail _].
  destruct (Hfail eq_refl) as [Hlen | (i & Hi & Hn)].
  - apply Hlen. reflexivity.
  - destruct i as [ | [ | [ | [ | i]]]]; try discriminate Hn. lia.
Qed.

(** C3, amended.  [deserialize] is total, and its result is empty exactly
    when the split reports failure, or does not give five tokens, or one of
    the five tokens is not accepted as an [int]; ["1; 2; 3"] and
    ["1; 2; 3; 4; x"] both give the empty result. *)
Theorem deserialize_empty_iff :
  (forall str : string,
      deserialize str = None <->
      (fst (unescape_strings_cstyle str) = false \/
       List.length (snd (unescape_strings_cstyle str)) <> 5%nat \/
       exists tok, In tok (snd (unescape_strings_cstyle str)) /\
                   lexical_cast_int tok = None)) /\
  deserialize "1; 2; 3" = None /\
  deserialize "1; 2; 3; 4; x" = None.
Proof.
  split; [ | split; reflexivity].
  intros str. unfold deserialize.
  destruct (unescape_strings_cstyle str) as [ok toks]. cbn [fst snd].
  destruct ok; cbn [negb orb].
  - destruct (Nat.eqb_spec (List.length toks) 5) as [Hlen | Hlen];
      cbn [negb].
    + destruct (cast_loop toks) as [vs | ] eqn:Ec.
      * split; [discriminate | ].
        intros [Hf | [Hl | Hex]]; [discriminate | contradiction | ].
        apply cast_loop_none in Hex. congruence.
      * split; [ | reflexivity]. intros _. right; right.
        apply cast_loop_none. exact Ec.
    + split; [auto | reflexivity].
  - split; [auto | reflexivity].
Qed.

End Serialization.

(** ** WindowMetrics: sanitizing against a screen *)

Section Sanitize.

Import Metrics.

(** Rewrites a reduction away whenever linear arithmetic shows that its
    argument is an [int] already. *)
Ltac unwrap :=
  repeat match goal with
  | |- context [Int.wrap ?e] =>
      rewrite (wrap_id e)
        by (unfold Int.in_range, Int.INT_MIN, Int.INT_MAX; lia)
  end.

Lemma quot_4_5 (w : Z) : 0 <= w -> Z.quot (4 * w) 5 = 4 * w / 5.
Proof. intros H. apply Z.quot_div_nonneg; lia. Qed.

(** The threshold the code computes never exceeds the exact one. *)
Lemma threshold_le (origin extent : Z) :
  Int.in_range origin -> 0 <= extent -> 4 * extent <= Int.INT_MAX ->
  Int.add origin (Int.div (Int.mul 4 extent) 5) <= origin + 4 * extent / 5.
Proof.
  unfold Int.in_range, Int.INT_MIN, Int.INT_MAX. intros Ho He Hmax.
  unfold Int.add, Int.div, Int.mul.
  rewrite (wrap_id (4 * extent))
    by (unfold Int.in_range, Int.INT_MIN, Int.INT_MAX; lia).
  rewrite quot_4_5 by assumption.
  assert (0 <= 4 * extent / 5 <= 4 * extent)
    by (split; [apply Z.div_pos; lia | apply Z.div_le_upper_bound; lia]).
  rewrite (wrap_id (4 * extent / 5))
    by (unfold Int.in_range, Int.INT_MIN, Int.INT_MAX; lia).
  apply wrap_le. unfold Int.INT_MIN. lia.
Qed.

(** C4.  After [sanitize_for_display] the top-left corner lies no further
    than four fifths of the screen's width, respectively height, from the
    screen's origin, whatever the stored rectangle was, one outside the
    screen included.  The screen rectangle has non-negative extents and
    [4 * width], [4 * height] are representable, so that the code's own
    arithmetic is defined. *)
Theorem sanitize_top_left_bound (m : WindowMetrics) (screen_rect : wxRect) :
  Int.in_range (x screen_rect) -> Int.in_range (y screen_rect) ->
  0 <= width screen_rect -> 0 <= height screen_rect ->
  4 * width screen_rect <= Int.INT_MAX ->
  4 * height screen_rect <= Int.INT_MAX ->
  x (rect (sanitize_for_display m screen_rect))
    <= x screen_rect + 4 * width screen_rect / 5 /\
  y (rect (sanitize_for_display m screen_rect))
    <= y screen_rect + 4 * height screen_rect / 5.
Proof.
  intros Hx Hy Hw Hh Hw4 Hh4.
  unfold sanitize_for_display. cbn [rect x y].
  split.
  - eapply Z.le_trans; [apply min_le_r | now apply threshold_le].
  - eapply Z.le_trans; [apply min_le_r | now apply threshold_le].
Qed.

Lemma sanitize_top_left_bound_witness :
  let m := mk_WindowMetrics (mk_wxRect 5000 (-3000) 800 600) false in
  let screen_rect := mk_wxRect 0 0 1920 1080 in
  x (rect (sanitize_for_display m screen_rect)) <= 0 + 4 * 1920 / 5 /\
  y (rect (sanitize_for_display m screen_rect)) <= 0 + 4 * 1080 / 5.
Proof.
  intros m screen_rect.
  apply (sanitize_top_left_bound m screen_rect);
    unfold Int.in_range, Int.INT_MIN, Int.INT_MAX; cbn; lia.
Defined.

(** [Intersect] never returns a negative extent: the extents are tested
    after they have been computed, and an empty result is reset to zero. *)
Lemma Intersect_extents (this other : wxRect) :
  0 <= width (WxRect.Intersect this other) /\
  0 <= height (WxRect.Intersect this other).
Proof.
  unfold WxRect.Intersect.
  match goal with
  | |- context [if ?c then _ else _] => destruct c eqn:E
  end; cbn [width height].
  - lia.
  - apply orb_false_elim in E as [Ew Eh].
    apply Z.leb_gt in Ew. apply Z.leb_gt in Eh. lia.
Qed.

Lemma corners_within_limits (r : wxRect) :
  within_limits r ->
  WxRect.GetRight r = x r + width r - 1 /\
  WxRect.GetBottom r = y r + height r - 1.
Proof.
  unfold within_limits, WxRect.GetRight, WxRect.GetBottom, Int.sub, Int.add.
  intros (Hx & Hy & Hw & Hh). split; unwrap; reflexivity.
Qed.

Lemma Intersect_disjoint (this other : wxRect) :
  within_limits this -> within_limits other -> disjoint this other ->
  width (WxRect.Intersect this other) = 0 /\
  height (WxRect.Intersect this other) = 0.
Proof.
  intros Ht Ho Hd. unfold WxRect.Intersect.
  destruct (corners_within_limits _ Ht) as [-> ->].
  destruct (corners_within_limits _ Ho) as [-> ->].
  match goal with
  | |- context [if ?c then _ else _] => destruct c eqn:E
  end; cbn [width height]; [split; reflexivity | exfalso].
  apply orb_false_elim in E as [Ew Eh].
  apply Z.leb_gt in Ew. apply Z.leb_gt in Eh.
  unfold within_limits in Ht, Ho. unfold disjoint in Hd.
  unfold Int.add, Int.sub in Ew, Eh.
  destruct (Z.ltb_spec (x this) (x other)),
           (Z.ltb_spec (y this) (y other)),
           (Z.ltb_spec (x other + width other - 1) (x this + width this - 1)),
           (Z.ltb_spec (y other + height other - 1)
                       (y this + height this - 1));
    repeat match type of Ew with
    | context [Int.wrap ?e] =>
        rewrite (wrap_id e) in Ew
          by (unfold Int.in_range, Int.INT_MIN, Int.INT_MAX; lia)
    end;
    repeat match type of Eh with
    | context [Int.wrap ?e] =>
        rewrite (wrap_id e) in Eh
          by (unfold Int.in_range, Int.INT_MIN, Int.INT_MAX; lia)
    end;
    lia.
Qed.

(** C5.  After [sanitize_for_display] the width and the height are never
    negative, for every stored rectangle and every screen rectangle; and a
    stored rectangle that shares no pixel with the screen rectangle comes
    out with width and height zero. *)
Theorem sanitize_extents_nonnegative :
  (forall (m : WindowMetrics) (screen_rect : wxRect),
      0 <= width (rect (sanitize_for_display m screen_rect)) /\
      0 <= height (rect (sanitize_for_display m screen_rect))) /\
  (forall (m : WindowMetrics) (screen_rect : wxRect),
      within_limits (rect m) -> within_limits screen_rect ->
      disjoint (rect m) screen_rect ->
      width (rect (sanitize_for_display m screen_rect)) = 0 /\
      height (rect (sanitize_for_display m screen_rect)) = 0).
Proof.
  split; intros m screen_rect.
  - unfold sanitize_for_display. cbn [rect width height].
    apply Intersect_extents.
  - intros Hm Hs Hd. unfold sanitize_for_display. cbn [rect width height].
    now apply Intersect_disjoint.
Qed.

Lemma sanitize_extents_nonnegative_witness :
  let m := mk_WindowMetrics (mk_wxRect 5000 5000 300 200) true in
  let screen_rect := mk_wxRect 0 0 1920 1080 in
  width (rect (sanitize_for_display m screen_rect)) = 0 /\
  height (rect (sanitize_for_display m screen_rect)) = 0.
Proof.
  intros m screen_rect.
  apply (proj2 sanitize_extents_nonnegative m screen_rect);
    unfold within_limits, disjoint; cbn; lia.
Defined.

End Sanitize.

(** ** DPI resolution *)

Section DpiResolver.

Import Dpi.

Variable DPI_DEFAULT : Z.



(** What [winapi_get_function] does to the process: the two resolver
    statics are untouched and the log grows by lookups of its own library
    and symbol, none of them twice. *)
Lemma winapi_get_function_effect (api : WinApi) (F : FnType)
  (dll fn_name : string) (st : Statics) :
  let st' := snd (winapi_get_function api F dll fn_name st) in
  GetDpiForWindow_fn st' = GetDpiForWindow_fn st /\
  GetDpiForMonitor_fn st' = GetDpiForMonitor_fn st /\
  exists l, probes st' = (probes st ++ l)%list /\ NoDup l /\
            incl l [ProbeLibrary dll; ProbeSymbol fn_name].
Proof.
  unfold winapi_get_function.
  destruct (dll_handle st F) as [[h | ] | ];
    [ | | destruct (LoadLibraryExW api dll) as [h | ]]; cbn;
    repeat split; try rewrite <- app_assoc; cbn.
  - exists [ProbeSymbol fn_name]. repeat split.
    + repeat constructor. intros [].
    + intros p [<- | []]. right; left; reflexivity.
  - exists []. rewrite app_nil_r. repeat split.
    + constructor.
    + intros p [].
  - exists [ProbeLibrary dll; ProbeSymbol fn_name]. repeat split.
    + repeat constructor; cbn; intuition discriminate.
    + apply incl_refl.
  - exists [ProbeLibrary dll]. repeat split.
    + repeat constructor. intros [].
    + intros p [<- | []]. left; reflexivity.
Qed.

(** Appending fresh, pairwise distinct entries keeps a log duplicate-free. *)
Lemma NoDup_extend (old new : list Probe) :
  NoDup old -> NoDup new -> (forall p, In p new -> ~ In p old) ->
  NoDup (old ++ new)%list.
Proof.
  intros Ho Hn Hfresh. apply NoDup_app; try assumption.
  intros p Hp Hq. exact (Hfresh p Hq Hp).
Qed.

Lemma init_GetDpiForWindow_fn_invariant (api : WinApi) (st : Statics) :
  probe_invariant st ->
  probe_invariant (snd (init_GetDpiForWindow_fn api st)).
Proof.
  intros (Hnd & HW & HM). unfold init_GetDpiForWindow_fn.
  destruct (GetDpiForWindow_fn st) as [f | ] eqn:Ef;
    [cbn; unfold probe_invariant; rewrite Ef; auto | ].
  pose proof (winapi_get_function_effect api GetDpiForWindow_t
                "User32.dll" "GetDpiForWindow" st) as Heff.
  destruct (winapi_get_function _ _ _ _ _) as [f st0].
  cbn [snd] in Heff |- *.
  destruct Heff as (_ & EM & l & El & Hl & Hincl).
  unfold probe_invariant; cbn. rewrite El, EM.
  split; [ | split; [discriminate | ]].
  - apply NoDup_extend; try assumption.
    intros p Hp. apply (HW eq_refl). exact (Hincl p Hp).
  - intros HN p Hp Hin. apply in_app_or in Hin as [Hin | Hin].
    + exact (HM HN p Hp Hin).
    + apply Hincl in Hin. cbn in Hp, Hin.
      intuition (subst; discriminate).
Qed.

Lemma init_GetDpiForMonitor_fn_invariant (api : WinApi) (st : Statics) :
  probe_invariant st ->
  probe_invariant (snd (init_GetDpiForMonitor_fn api st)).
Proof.
  intros (Hnd & HW & HM). unfold init_GetDpiForMonitor_fn.
  destruct (GetDpiForMonitor_fn st) as [f | ] eqn:Ef;
    [cbn; unfold probe_invariant; rewrite Ef; auto | ].
  pose proof (winapi_get_function_effect api GetDpiForMonitor_t
                "Shcore.dll" "GetDpiForMonitor" st) as Heff.
  destruct (winapi_get_function _ _ _ _ _) as [f st0].
  cbn [snd] in Heff |- *.
  destruct Heff as (EW & _ & l & El & Hl & Hincl).
  unfold probe_invariant; cbn. rewrite El, EW.
  split; [ | split; [ | discriminate]].
  - apply NoDup_extend; try assumption.
    intros p Hp. apply (HM eq_refl). exact (Hincl p Hp).
  - intros HN p Hp Hin. apply in_app_or in Hin as [Hin | Hin].
    + exact (HW HN p Hp Hin).
    + apply Hincl in Hin. cbn in Hp, Hin.
      intuition (subst; discriminate).
Qed.

Lemma get_dpi_for_window_invariant (platform : Platform) (api : WinApi)
  (window : option wxWindow) (st : Statics) :
  probe_invariant st ->
  probe_invariant
    (snd (get_dpi_for_window DPI_DEFAULT platform api window st)).
Proof.
  intros Hinv. destruct platform; cbn; try assumption.
  pose proof (init_GetDpiForWindow_fn_invariant api st Hinv) as H1.
  destruct (init_GetDpiForWindow_fn api st) as [fnW st1]. cbn [snd] in H1.
  pose proof (init_GetDpiForMonitor_fn_invariant api st1 H1) as H2.
  destruct (init_GetDpiForMonitor_fn api st1) as [fnM st2]. exact H2.
Qed.

Lemma run_calls_invariant (platform : Platform) (api : WinApi)
  (calls : list (option wxWindow)) :
  forall st, probe_invariant st ->
  probe_invariant (snd (run_calls DPI_DEFAULT platform api calls st)).
Proof.
  induction calls as [ | w calls IH]; intros st Hinv; cbn [run_calls].
  - exact Hinv.
  - pose proof (get_dpi_for_window_invariant platform api w st Hinv) as H1.
    destruct (get_dpi_for_window DPI_DEFAULT platform api w st) as [r st1].
    specialize (IH st1 H1).
    destruct (run_calls DPI_DEFAULT platform api calls st1) as [rs st2].
    exact IH.
Qed.



End DpiResolver.

Section DpiWitnesses.

Import Dpi.



End DpiWitnesses.

(** ** Window-ready notification *)

Section WindowReady.

Import Notifier.

(** The handler bound on Linux: it queues the closure, runs nothing itself
    and skips the event. *)
Lemma linux_handler (cb : Callback) (w : World) :
  run_handler [SCallAfter [DCallback cb]; SSkip] w
  = (mk_World (show_handlers w) (pending w ++ [[DCallback cb]])
              (trace w ++ [ObsHandlerEnter; ObsHandlerReturn true]), true).
Proof.
  unfold run_handler, exec_body, run_callback, observe; cbn.
  now rewrite <- app_assoc.
Qed.

(** The handler bound on macOS: the callback runs between the entry into
    the handler and its return, and the event is skipped. *)
Lemma apple_handler (cb : Callback) (w : World) :
  run_handler [SCallback cb; SSkip] w
  = (mk_World (show_handlers w) (pending w)
              (trace w ++ [ObsHandlerEnter; ObsCallback cb;
                           ObsHandlerReturn true]), true).
Proof.
  unfold run_handler, exec_body, run_callback, observe; cbn.
  now rewrite <- !app_assoc.
Qed.

(** C7.  When the registered callback runs.  On Windows it runs during the
    registration itself.  On Linux the registration runs nothing; the
    handler for the "shown" notification returns without having run the
    callback, with the event skipped so that the earlier handlers still see
    it, and the callback runs in the following iteration of the event loop,
    outside of every handler.  On macOS the callback runs inside the handler,
    before the handler returns, and the event is skipped as well. *)
Theorem window_ready_callback_timing (cb : Callback) :
  (forall w : World,
      trace (on_window_geometry Win32 cb w)
      = (trace w ++ [ObsCallback cb])%list /\
      show_handlers (on_window_geometry Win32 cb w) = show_handlers w /\
      pending (on_window_geometry Win32 cb w) = pending w) /\
  (forall w : World,
      trace (on_window_geometry Linux cb w) = trace w /\
      pending (on_window_geometry Linux cb w) = pending w /\
      show_event (on_window_geometry Linux cb w)
      = propagate (show_handlers w)
          (mk_World (show_handlers (on_window_geometry Linux cb w))
                    (pending w ++ [[DCallback cb]])
                    (trace w ++ [ObsHandlerEnter; ObsHandlerReturn true]))) /\
  (forall (hs : list (list Stmt)) (tr : list Obs),
      loop_iteration (mk_World hs [[DCallback cb]] tr)
      = mk_World hs [] (tr ++ [ObsLoopIteration; ObsCallback cb])) /\
  (forall w : World,
      trace (on_window_geometry Apple cb w) = trace w /\
      show_event (on_window_geometry Apple cb w)
      = propagate (show_handlers w)
          (mk_World (show_handlers (on_window_geometry Apple cb w))
                    (pending w)
                    (trace w ++ [ObsHandlerEnter; ObsCallback cb;
                                 ObsHandlerReturn true]))) /\
  callback_depths 0
    (trace (on_window_geometry Win32 cb fresh_window)) = [(cb, 0%nat)] /\
  callback_depths 0
    (trace (show_event (on_window_geometry Linux cb fresh_window))) = [] /\
  callback_depths 0
    (trace (loop_iteration
              (show_event (on_window_geometry Linux cb fresh_window))))
  = [(cb, 0%nat)] /\
  callback_depths 0
    (trace (show_event (on_window_geometry Apple cb fresh_window)))
  = [(cb, 1%nat)].
Proof.
  repeat apply conj; try reflexivity.
  - intros w. repeat split.
  - intros w. repeat split.
    unfold show_event, on_window_geometry, Bind.
    cbn [show_handlers propagate]. now rewrite linux_handler.
  - intros hs tr. unfold loop_iteration; cbn.
    unfold run_callback, observe; cbn.
    now rewrite <- app_assoc.
  - intros w. split; [reflexivity | ].
    unfold show_event, on_window_geometry, Bind.
    cbn [show_handlers propagate]. now rewrite apple_handler.
Qed.

End WindowReady.

(** ** CheckboxFileDialog *)

Section CheckboxDialog.

Import Checkbox.

(** A dialog without creator never gets an extra control, whatever the
    toolkit and the user do with it. *)
Lemma no_creator_preserved (events : list DialogEvent) :
  forall d : CheckboxFileDialog,
    m_extraControlCreator d = None -> m_extraControl d = None ->
    creator_calls d = [] ->
    m_extraControlCreator (run events d) = None /\
    m_extraControl (run events d) = None /\
    creator_calls (run events d) = [].
Proof.
  unfold run.
  induction events as [ | e events IH]; intros d Hc Hx Hn; cbn [fold_left].
  - auto.
  - apply IH; destruct e; cbn [step];
      unfold CreateExtraControl, click; rewrite ?Hc, ?Hx; cbn iota;
      first [assumption | reflexivity].
Qed.

(** Whatever the creator has returned so far was a panel with its checkbox
    checked; clicking later does not rewrite the log. *)
Lemma creator_calls_checked (events : list DialogEvent) :
  forall d : CheckboxFileDialog,
    Forall checked_panel (creator_calls d) ->
    Forall checked_panel (creator_calls (run events d)).
Proof.
  unfold run.
  induction events as [ | e events IH]; intros d Hd; cbn [fold_left].
  - exact Hd.
  - apply IH. destruct e as [measure | ]; cbn [step].
    + unfold CreateExtraControl.
      destruct (m_extraControlCreator d) as [[] | ]; [ | exact Hd].
      destruct (m_extraControl d); [exact Hd | ].
      cbn [creator_calls]. apply Forall_app. split; [exact Hd | ].
      destruct measure; repeat constructor;
        eexists; split; reflexivity.
    + unfold click.
      destruct (m_extraControl d) as [[p | ] | ]; exact Hd.
Qed.

(** C9.  [get_checkbox_value] returns the checkbox's state when the extra
    control of the dialog is the panel, following every click, and [false]
    when there is no such panel.  A dialog constructed with an empty label
    has no creator installed: the creator is never invoked on it and
    [get_checkbox_value] stays [false]. *)
Theorem get_checkbox_value_panel_or_false :
  (forall (d : CheckboxFileDialog) (p : ExtraPanel),
      m_extraControl d = Some (CtlExtraPanel p) ->
      get_checkbox_value d = cbox_value p) /\
  (forall (d : CheckboxFileDialog) (p : ExtraPanel),
      m_extraControl d = Some (CtlExtraPanel p) ->
      get_checkbox_value (click d) = negb (get_checkbox_value d)) /\
  (forall d : CheckboxFileDialog,
      as_extra_panel (m_extraControl d) = None ->
      get_checkbox_value d = false) /\
  (forall (checkbox_value : bool) (events : list DialogEvent),
      let d := run events (CheckboxFileDialog_new "" checkbox_value) in
      m_extraControlCreator d = None /\
      creator_calls d = [] /\
      get_checkbox_value d = false).
Proof.
  split; [ | split; [ | split]].
  - intros d p H. unfold get_checkbox_value. rewrite H. reflexivity.
  - intros d p H. unfold get_checkbox_value, click. rewrite H. reflexivity.
  - intros d H. unfold get_checkbox_value. rewrite H. reflexivity.
  - intros v events d.
    destruct (no_creator_preserved events (CheckboxFileDialog_new "" v))
      as (Hc & Hx & Hn); try reflexivity.
    subst d. repeat split; try assumption.
    unfold get_checkbox_value. rewrite Hx. reflexivity.
Qed.

Lemma get_checkbox_value_panel_or_false_witness :
  let d := run [EvShow true; EvClick]
               (CheckboxFileDialog_new "Export as binary" false) in
  get_checkbox_value d = false.
Proof.
  intros d.
  exact (proj1 get_checkbox_value_panel_or_false d
           (mk_ExtraPanel "Export as binary" false) eq_refl).
Defined.

(** C10.  Every panel the creator builds has its checkbox set to [true],
    with the dialog as parent as well as with the dummy parent, and so has
    every control the creator returned during the life of a dialog.  The
    [checkbox_value] argument of the dialog's constructor has no influence:
    two dialogs that differ in it only are equal, and a dialog with a label
    reads [true] once its extra control has been created. *)
Theorem checkbox_starts_checked :
  (forall parent : Parent, cbox_value (ExtraPanel_new parent) = true) /\
  (forall parent : Parent,
      exists p, ExtraPanel_ctor parent = CtlExtraPanel p /\
                cbox_value p = true) /\
  (forall (label : string) (checkbox_value : bool)
          (events : list DialogEvent),
      Forall checked_panel
        (creator_calls
           (run events (CheckboxFileDialog_new label checkbox_value)))) /\
  (forall (label : string) (v1 v2 : bool),
      CheckboxFileDialog_new label v1 = CheckboxFileDialog_new label v2) /\
  (forall (label : string) (checkbox_value measure : bool),
      IsEmpty label = false ->
      get_checkbox_value
        (CreateExtraControl measure
           (CheckboxFileDialog_new label checkbox_value)) = true).
Proof.
  repeat apply conj.
  - intros parent. reflexivity.
  - intros parent. eexists. split; reflexivity.
  - intros label v events. apply creator_calls_checked.
    unfold CheckboxFileDialog_new.
    destruct (IsEmpty label); constructor.
  - intros label v1 v2. reflexivity.
  - intros label v measure H.
    unfold CheckboxFileDialog_new. rewrite H. reflexivity.
Qed.

Lemma checkbox_starts_checked_witness :
  get_checkbox_value
    (CreateExtraControl true
       (CheckboxFileDialog_new "Export as binary" false)) = true.
Proof.
  exact (proj2 (proj2 (proj2 (proj2 checkbox_starts_checked)))
           "Export as binary" false true eq_refl).
Defined.

End CheckboxDialog.

(** * Further properties of the translation unit *)

(** ** Top-level parent lookup *)

Section ToplevelParent.

Import Toplevel.

(** Either the whole lineage is without a top-level window and the search
    fails, or the search stops at the first top-level window and returns
    what the cast makes of it. *)
Lemma find_from_cases (w : wxWindow) :
  (find_from w = None /\ Forall not_top (lineage w)) \/
  (exists nearer t further,
      lineage w = (nearer ++ t :: further)%list /\
      Forall not_top nearer /\ top_level t = true /\
      find_from w = as_toplevel t).
Proof.
  induction w as [a | a parent IH]; cbn [find_from lineage attrs].
  - destruct (IsTopLevel a) eqn:Ea.
    + right. exists [], (Orphan a), []. repeat split; auto.
    + left. split; [reflexivity | ]. repeat constructor. exact Ea.
  - destruct (IsTopLevel a) eqn:Ea.
    + right. exists [], (Child a parent), (lineage parent).
      repeat split; auto.
    + destruct IH as [[Hn Hall] | (nearer & t & further & Hl & Hn & Ht & Hf)].
      * left. split; [exact Hn | ]. constructor; [exact Ea | exact Hall].
      * right. exists (Child a parent :: nearer), t, further.
        rewrite Hl. repeat split; auto.
Qed.

(** The first top-level window of a list is determined by the list. *)
Lemma first_top_unique (n1 n2 f1 f2 : list wxWindow) (t1 t2 : wxWindow) :
  (n1 ++ t1 :: f1 = n2 ++ t2 :: f2)%list ->
  Forall not_top n1 -> Forall not_top n2 ->
  top_level t1 = true -> top_level t2 = true -> t1 = t2.
Proof.
  revert n2. induction n1 as [ | u n1 IH]; intros n2 E H1 H2 T1 T2.
  - destruct n2 as [ | v n2]; cbn in E.
    + now injection E.
    + injection E as <- _. inversion H2 as [ | ? ? Hv _]; subst.
      unfold not_top in Hv. congruence.
  - destruct n2 as [ | v n2]; cbn in E.
    + injection E as -> _. inversion H1 as [ | ? ? Hu _]; subst.
      unfold not_top in Hu. congruence.
    + injection E as _ E. inversion H1; inversion H2; subst.
      eapply IH; eassumption.
Qed.

(** X1.  A window returned by [find_toplevel_parent] is the argument itself
    or one of its ancestors, answers [IsTopLevel()] with true, is a
    [wxTopLevelWindow], and no window nearer to the argument is top-level. *)
Theorem find_toplevel_parent_nearest (window : option wxWindow)
  (t : wxWindow) :
  find_toplevel_parent window = Some t ->
  exists w nearer further,
    window = Some w /\
    lineage w = (nearer ++ t :: further)%list /\
    Forall (fun u => top_level u = false) nearer /\
    top_level t = true /\ is_wxTopLevelWindow (attrs t) = true.
Proof.
  destruct window as [w | ]; cbn [find_toplevel_parent]; [ | discriminate].
  intros Hfind.
  destruct (find_from_cases w)
    as [[Hn _] | (nearer & t' & further & Hl & Hn & Ht & Hf)];
    [congruence | ].
  rewrite Hf in Hfind. unfold as_toplevel in Hfind.
  destruct (is_wxTopLevelWindow (attrs t')) eqn:Ec; [ | discriminate].
  injection Hfind as <-.
  exists w, nearer, further. repeat split; assumption.
Qed.

Lemma find_toplevel_parent_nearest_witness :
  let frame := Orphan (mk_Attrs 1 true true) in
  let panel := Child (mk_Attrs 2 false false) frame in
  let button := Child (mk_Attrs 3 false false) panel in
  exists w nearer further,
    Some button = Some w /\
    lineage w = (nearer ++ frame :: further)%list /\
    Forall (fun u => top_level u = false) nearer /\
    top_level frame = true /\ is_wxTopLevelWindow (attrs frame) = true.
Proof.
  intros frame panel button.
  exact (find_toplevel_parent_nearest (Some button) frame eq_refl).
Defined.

(** X2.  [find_toplevel_parent] returns null in three cases only: the
    argument is null; no window of the lineage is top-level; or the first
    top-level window of the lineage is not a [wxTopLevelWindow], whatever
    lies beyond it. *)
Theorem find_toplevel_parent_null_iff (window : option wxWindow) :
  find_toplevel_parent window = None <->
  (window = None \/
   (exists w, window = Some w /\
              Forall (fun u => top_level u = false) (lineage w)) \/
   (exists w nearer t further,
       window = Some w /\
       lineage w = (nearer ++ t :: further)%list /\
       Forall (fun u => top_level u = false) nearer /\
       top_level t = true /\ is_wxTopLevelWindow (attrs t) = false)).
Proof.
  destruct window as [w | ]; cbn [find_toplevel_parent];
    [ | split; auto].
  destruct (find_from_cases w)
    as [[Hn Hall] | (nearer & t & further & Hl & Hn & Ht & Hf)].
  - split; [ | intros _; exact Hn].
    intros _. right; left. exists w. split; [reflexivity | exact Hall].
  - rewrite Hf. unfold as_toplevel. split.
    + destruct (is_wxTopLevelWindow (attrs t)) eqn:Ec; [discriminate | ].
      intros _. right; right. exists w, nearer, t, further.
      repeat split; assumption.
    + intros [Hnull | [(w' & [= <-] & Hall)
                      | (w' & n' & t' & f' & [= <-] & Hl' & Hn' & Ht' & Hc')]].
      * discriminate.
      * exfalso. rewrite Hl in Hall.
        apply Forall_app in Hall as [_ Hall].
        inversion Hall as [ | ? ? Hbad _]; subst. congruence.
      * assert (t = t') as <-.
        { eapply first_top_unique with (n1 := nearer) (n2 := n');
            try eassumption. rewrite <- Hl. exact Hl'. }
        rewrite Hc'. reflexivity.
Qed.

End ToplevelParent.

(** ** WindowMetrics: what deserialization returns *)

Section Deserialized.

Import Text Metrics.

Lemma cast_loop_range (toks : list string) :
  forall vs, cast_loop toks = Some vs -> Forall Int.in_range vs.
Proof.
  induction toks as [ | t toks IH]; cbn [cast_loop]; intros vs H.
  - injection H as <-. constructor.
  - destruct (lexical_cast_int t) as [v | ] eqn:Et; [ | discriminate].
    destruct (cast_loop toks) as [vs' | ]; [ | discriminate].
    injection H as <-. constructor.
    + eapply lexical_cast_int_range; eassumption.
    + now apply IH.
Qed.

Lemma nth_in_range (vs : list Z) (i : nat) :
  Forall Int.in_range vs -> Int.in_range (nth i vs 0).
Proof.
  intros H. revert i. induction H as [ | v vs Hv _ IH]; intros [ | i]; cbn;
    auto; unfold Int.in_range, Int.INT_MIN, Int.INT_MAX; lia.
Qed.

Lemma deserialize_range (str : string) (m : WindowMetrics) :
  deserialize str = Some m -> int_fields (rect m).
Proof.
  unfold deserialize.
  destruct (unescape_strings_cstyle str) as [ok toks].
  destruct (negb ok || negb (Nat.eqb (List.length toks) 5));
    [discriminate | ].
  destruct (cast_loop toks) as [vs | ] eqn:Ec; [ | discriminate].
  intros [= <-]. apply cast_loop_range in Ec.
  unfold int_fields; cbn [rect x y width height].
  repeat split; now apply nth_in_range.
Qed.

(** What was written is read back, field by field. *)
Lemma serialize_read_back (m : WindowMetrics) :
  int_fields (rect m) -> deserialize (serialize m) = Some m.
Proof.
  destruct m as [[rx ry rw rh] flag]. unfold int_fields. cbn [rect x y width height].
  intros (Hx & Hy & Hw & Hh).
  assert (forall z rest, split_fields (int_to_string z ++ "; " ++ rest)%string
                         = int_to_string z :: split_fields rest) as Hsplit
    by (intros; apply split_fields_app, int_to_string_no_semicolon).
  unfold deserialize, serialize, unescape_strings_cstyle.
  cbn [rect maximized x y width height].
  rewrite !Hsplit, split_fields_single
    by apply int_to_string_no_semicolon.
  cbn [List.length Nat.eqb negb orb cast_loop].
  rewrite (lexical_cast_int_to_string rx Hx), (lexical_cast_int_to_string ry Hy),
    (lexical_cast_int_to_string rw Hw), (lexical_cast_int_to_string rh Hh).
  destruct flag; cbn [Int.of_bool]; reflexivity.
Qed.

(** [lexical_cast<int>] reads the number its text denotes and rejects it
    when it is no value of [int]. *)
Lemma lexical_cast_int_reading (tok : string) :
  lexical_cast_int tok
  = match Numeral.numeral_value tok with
    | Some z =>
        if (Int.INT_MIN <=? z) && (z <=? Int.INT_MAX) then Some z else None
    | None => None
    end.
Proof.
  unfold lexical_cast_int, Numeral.numeral_value, lcast_ret_unsigned.
  destruct tok as [ | c rest]; [reflexivity | ].
  cbn zeta.
  assert (forall d, 0 <= Z.of_uint d) as Hnn
    by (intros d; unfold Z.of_uint; apply N2Z.is_nonneg).
  destruct (Ascii.eqb c "-") eqn:Em; cbn [orb].
  - destruct (NilZero.uint_of_string rest) as [d | ]; [ | reflexivity].
    cbn [option_map]. specialize (Hnn d).
    unfold Int.INT_MIN, Int.INT_MAX.
    destruct (Z.leb_spec (Z.of_uint d) (2 ^ 32 - 1)),
             (Z.leb_spec (Z.of_uint d) (2 ^ 31)),
             (Z.leb_spec (- 2 ^ 31) (- Z.of_uint d)),
             (Z.leb_spec (- Z.of_uint d) (2 ^ 31 - 1));
      cbn [andb]; try reflexivity; try lia.
    rewrite wrap_id; [f_equal; lia | ].
    unfold Int.in_range, Int.INT_MIN, Int.INT_MAX. lia.
  - destruct (Ascii.eqb c "+") eqn:Ep;
      match goal with
      | |- context [NilZero.uint_of_string ?t] =>
          destruct (NilZero.uint_of_string t) as [d | ]; [ | reflexivity]
      end;
      cbn [option_map]; specialize (Hnn d);
      unfold Int.INT_MIN, Int.INT_MAX;
      destruct (Z.leb_spec (Z.of_uint d) (2 ^ 32 - 1)),
               (Z.leb_spec (Z.of_uint d) (2 ^ 31 - 1)),
               (Z.leb_spec (- 2 ^ 31) (Z.of_uint d));
      cbn [andb]; try reflexivity; lia.
Qed.

Lemma lexical_cast_int_denotes (tok : string) (v : Z) :
  lexical_cast_int tok = Some v -> Numeral.numeral_value tok = Some v.
Proof.
  rewrite lexical_cast_int_reading.
  destruct (Numeral.numeral_value tok) as [z | ]; [ | discriminate].
  destruct ((Int.INT_MIN <=? z) && (z <=? Int.INT_MAX)); [ | discriminate].
  intros [= <-]. reflexivity.
Qed.

Lemma lexical_cast_int_rejects (tok : string) (z : Z) :
  Numeral.numeral_value tok = Some z -> ~ Int.in_range z ->
  lexical_cast_int tok = None.
Proof.
  intros Hz Hout. rewrite lexical_cast_int_reading, Hz.
  destruct (Z.leb_spec Int.INT_MIN z), (Z.leb_spec z Int.INT_MAX);
    cbn [andb]; try reflexivity.
  exfalso. apply Hout. split; assumption.
Qed.

(** An accepted text consists of five tokens, and the rectangle holds what
    the first four were converted to. *)
Lemma deserialize_tokens (str : string) (m : WindowMetrics) :
  deserialize str = Some m ->
  exists t0 t1 t2 t3 t4,
    snd (unescape_strings_cstyle str) = [t0; t1; t2; t3; t4] /\
    lexical_cast_int t0 = Some (x (rect m)) /\
    lexical_cast_int t1 = Some (y (rect m)) /\
    lexical_cast_int t2 = Some (width (rect m)) /\
    lexical_cast_int t3 = Some (height (rect m)).
Proof.
  unfold deserialize.
  destruct (unescape_strings_cstyle str) as [ok toks]. cbn [snd].
  destruct ok; [ | discriminate].
  destruct toks as [ | t0 [ | t1 [ | t2 [ | t3 [ | t4 [ | t5 toks]]]]]];
    try discriminate.
  cbn [List.length Nat.eqb negb orb cast_loop].
  destruct (lexical_cast_int t0) as [v0 | ] eqn:E0; [ | discriminate].
  destruct (lexical_cast_int t1) as [v1 | ] eqn:E1; [ | discriminate].
  destruct (lexical_cast_int t2) as [v2 | ] eqn:E2; [ | discriminate].
  destruct (lexical_cast_int t3) as [v3 | ] eqn:E3; [ | discriminate].
  destruct (lexical_cast_int t4) as [v4 | ] eqn:E4; [ | discriminate].
  intros [= <-]. exists t0, t1, t2, t3, t4.
  cbn [rect x y width height nth]. repeat split; assumption.
Qed.

(** X3.  [deserialize] never truncates or wraps a number.  When it accepts a
    text, the four rectangle fields of the result are values of [int] and
    each one is exactly the number its token denotes; and when any token of
    the text denotes a number outside the range of [int], the parse
    fails. *)
Theorem deserialize_never_wraps (str : string) :
  (forall m : WindowMetrics,
      deserialize str = Some m ->
      int_fields (rect m) /\
      exists t0 t1 t2 t3 t4,
        snd (unescape_strings_cstyle str) = [t0; t1; t2; t3; t4] /\
        Numeral.numeral_value t0 = Some (x (rect m)) /\
        Numeral.numeral_value t1 = Some (y (rect m)) /\
        Numeral.numeral_value t2 = Some (width (rect m)) /\
        Numeral.numeral_value t3 = Some (height (rect m))) /\
  (forall (tok : string) (z : Z),
      In tok (snd (unescape_strings_cstyle str)) ->
      Numeral.numeral_value tok = Some z -> ~ Int.in_range z ->
      deserialize str = None).
Proof.
  split.
  - intros m H. split; [exact (deserialize_range str m H) | ].
    destruct (deserialize_tokens str m H)
      as (t0 & t1 & t2 & t3 & t4 & Ht & H0 & H1 & H2 & H3).
    exists t0, t1, t2, t3, t4.
    repeat split; auto using lexical_cast_int_denotes.
  - intros tok z Hin Hz Hout.
    assert (cast_loop (snd (unescape_strings_cstyle str)) = None) as Hc.
    { apply cast_loop_none. exists tok. split; [exact Hin | ].
      eapply lexical_cast_int_rejects; eassumption. }
    unfold deserialize.
    destruct (unescape_strings_cstyle str) as [ok toks]. cbn [snd] in Hc.
    destruct (negb ok || negb (Nat.eqb (List.length toks) 5));
      [reflexivity | ].
    rewrite Hc. reflexivity.
Qed.

Lemma deserialize_never_wraps_witness :
  deserialize "4294967297; 0; -2147483649; 0; 0" = None.
Proof.
  apply (proj2 (deserialize_never_wraps "4294967297; 0; -2147483649; 0; 0")
           "-2147483649" (-2147483649)).
  - cbn. auto.
  - reflexivity.
  - unfold Int.in_range, Int.INT_MIN. intros [H _]. apply H. reflexivity.
Defined.

(** X4.  [deserialize] normalizes: when it accepts a text, writing its
    result with [serialize] and reading that again gives the same
    metrics. *)
Theorem deserialize_serialize_deserialize (str : string)
  (m : WindowMetrics) :
  deserialize str = Some m -> deserialize (serialize m) = Some m.
Proof.
  intros H. apply serialize_read_back. eapply deserialize_range. exact H.
Qed.

Lemma deserialize_serialize_deserialize_witness :
  deserialize
    (serialize (mk_WindowMetrics (mk_wxRect 7 (-3) 640 480) false))
  = Some (mk_WindowMetrics (mk_wxRect 7 (-3) 640 480) false).
Proof.
  exact (deserialize_serialize_deserialize "+7; -03; 0640; 480; 6"
           (mk_WindowMetrics (mk_wxRect 7 (-3) 640 480) false) eq_refl).
Defined.

(** X5.  [serialize] is injective on metrics whose fields are [int]
    values: two different window geometries are never stored as the same
    text. *)
Theorem serialize_injective (m1 m2 : WindowMetrics) :
  int_fields (rect m1) -> int_fields (rect m2) ->
  serialize m1 = serialize m2 -> m1 = m2.
Proof.
  intros H1 H2 E.
  pose proof (serialize_read_back m1 H1) as R1.
  pose proof (serialize_read_back m2 H2) as R2.
  rewrite E in R1. congruence.
Qed.

Lemma serialize_injective_witness :
  let m := mk_WindowMetrics (mk_wxRect 1 2 3 4) true in
  m = m.
Proof.
  intros m.
  apply (serialize_injective m m);
    try reflexivity; unfold int_fields, Int.in_range; cbn; lia.
Defined.

End Deserialized.

(** ** WindowMetrics: the sanitized rectangle *)

Section Sanitized.

Import Metrics Capture.

Ltac int_bounds :=
  unfold Int.in_range, Int.INT_MIN, Int.INT_MAX in *; lia.

Lemma min_is_Zmin (a b : Z) : Int.min a b = Z.min a b.
Proof. unfold Int.min. destruct (Z.ltb_spec b a); lia. Qed.

Lemma within_limits_int_fields (r : wxRect) :
  within_limits r -> int_fields r.
Proof. unfold within_limits, int_fields. intros H. repeat split; int_bounds. Qed.

(** Where nothing overflows the threshold is the exact one. *)
Lemma threshold_exact (origin extent : Z) :
  - 2 ^ 29 <= origin <= 2 ^ 29 -> 0 <= extent ->
  4 * extent <= Int.INT_MAX ->
  Int.add origin (Int.div (Int.mul 4 extent) 5) = origin + 4 * extent / 5.
Proof.
  intros Ho He Hmax. unfold Int.add, Int.div, Int.mul.
  rewrite (wrap_id (4 * extent)) by int_bounds.
  rewrite Z.quot_div_nonneg by lia.
  assert (0 <= 4 * extent / 5 <= extent)
    by (split; [apply Z.div_pos; lia | apply Z.div_le_upper_bound; lia]).
  rewrite (wrap_id (4 * extent / 5)) by int_bounds.
  apply wrap_id. int_bounds.
Qed.

(** [Intersect] away from the limits of [int]: the usual intersection of
    two rectangles, with both extents zero when it is empty. *)
Lemma Intersect_exact (this other : wxRect) :
  - 2 ^ 29 <= x this <= 2 ^ 30 -> - 2 ^ 29 <= y this <= 2 ^ 30 ->
  0 <= width this <= 2 ^ 29 -> 0 <= height this <= 2 ^ 29 ->
  within_limits other ->
  let x1 := Z.max (x this) (x other) in
  let y1 := Z.max (y this) (y other) in
  let w := Z.min (x this + width this) (x other + width other) - x1 in
  let h := Z.min (y this + height this) (y other + height other) - y1 in
  WxRect.Intersect this other
  = if (w <=? 0) || (h <=? 0) then mk_wxRect x1 y1 0 0
    else mk_wxRect x1 y1 w h.
Proof.
  intros Hx Hy Hw Hh (Hox & Hoy & How & Hoh) x1 y1 w h.
  subst x1 y1 w h.
  unfold WxRect.Intersect, WxRect.GetRight, WxRect.GetBottom,
    Int.add, Int.sub.
  rewrite (wrap_id (x this + width this)) by int_bounds.
  rewrite (wrap_id (y this + height this)) by int_bounds.
  rewrite (wrap_id (x other + width other)) by int_bounds.
  rewrite (wrap_id (y other + height other)) by int_bounds.
  rewrite (wrap_id (x this + width this - 1)) by int_bounds.
  rewrite (wrap_id (y this + height this - 1)) by int_bounds.
  rewrite (wrap_id (x other + width other - 1)) by int_bounds.
  rewrite (wrap_id (y other + height other - 1)) by int_bounds.
  destruct (Z.ltb_spec (x this) (x other)),
           (Z.ltb_spec (y this) (y other)),
           (Z.ltb_spec (x other + width other - 1) (x this + width this - 1)),
           (Z.ltb_spec (y other + height other - 1)
                       (y this + height this - 1));
    repeat match goal with
    | |- context [Int.wrap ?e] => rewrite (wrap_id e) by int_bounds
    end;
    repeat match goal with
    | |- context [Z.max ?a ?b] =>
        first [rewrite (Z.max_l a b) by lia | rewrite (Z.max_r a b) by lia]
    | |- context [Z.min ?a ?b] =>
        first [rewrite (Z.min_l a b) by lia | rewrite (Z.min_r a b) by lia]
    end;
    match goal with
    | |- (if ?c then _ else _) = (if ?d then _ else _) =>
        replace c with d; [destruct d; f_equal; lia | ]
    end;
    f_equal; f_equal; lia.
Qed.

(** The sanitized rectangle in closed form. *)
Lemma sanitize_exact (m : WindowMetrics) (screen_rect : wxRect) :
  - 2 ^ 29 <= x (rect m) <= 2 ^ 30 -> - 2 ^ 29 <= y (rect m) <= 2 ^ 30 ->
  0 <= width (rect m) <= 2 ^ 29 -> 0 <= height (rect m) <= 2 ^ 29 ->
  within_limits screen_rect -> threshold_defined screen_rect ->
  let r := WxRect.Intersect (rect m) screen_rect in
  sanitize_for_display m screen_rect
  = mk_WindowMetrics
      (mk_wxRect
         (Z.min (x r) (x screen_rect + 4 * width screen_rect / 5))
         (Z.min (y r) (y screen_rect + 4 * height screen_rect / 5))
         (width r) (height r))
      (maximized m).
Proof.
  intros Hx Hy Hw Hh Hs [Htw Hth] r. subst r.
  unfold sanitize_for_display. rewrite !min_is_Zmin.
  destruct Hs as (Hsx & Hsy & Hsw & Hsh).
  rewrite !threshold_exact by lia. reflexivity.
Qed.

(** What [sanitize_for_display] guarantees of its result. *)
Lemma sanitize_settles (m : WindowMetrics) (screen_rect : wxRect) :
  within_limits (rect m) -> within_limits screen_rect ->
  threshold_defined screen_rect ->
  settled (rect (sanitize_for_display m screen_rect)) screen_rect /\
  width (rect (sanitize_for_display m screen_rect)) <= width (rect m) /\
  height (rect (sanitize_for_display m screen_rect)) <= height (rect m).
Proof.
  intros Hm Hs Ht.
  pose proof Hm as (Hx & Hy & Hw & Hh).
  rewrite sanitize_exact by (try assumption; lia).
  rewrite Intersect_exact by (try assumption; lia).
  destruct Hs as (Hsx & Hsy & Hsw & Hsh). destruct Ht as [Htw Hth].
  unfold settled.
  assert (0 <= 4 * width screen_rect / 5 <= width screen_rect)
    by (split; [apply Z.div_pos; lia | apply Z.div_le_upper_bound; lia]).
  assert (0 <= 4 * height screen_rect / 5 <= height screen_rect)
    by (split; [apply Z.div_pos; lia | apply Z.div_le_upper_bound; lia]).
  match goal with
  | |- context [if ?c then _ else _] => destruct c eqn:E
  end; cbn [rect x y width height].
  - lia.
  - apply orb_false_elim in E as [Ew Eh].
    apply Z.leb_gt in Ew. apply Z.leb_gt in Eh. lia.
Qed.

(** A settled rectangle passes through [sanitize_for_display] unchanged. *)
Lemma sanitize_settled (m : WindowMetrics) (screen_rect : wxRect) :
  within_limits screen_rect -> threshold_defined screen_rect ->
  settled (rect m) screen_rect ->
  sanitize_for_display m screen_rect = m.
Proof.
  intros Hs Ht Hset.
  pose proof Hs as (Hsx & Hsy & Hsw & Hsh).
  assert (0 <= 4 * width screen_rect / 5 <= width screen_rect)
    by (split; [apply Z.div_pos; lia | apply Z.div_le_upper_bound; lia]).
  assert (0 <= 4 * height screen_rect / 5 <= height screen_rect)
    by (split; [apply Z.div_pos; lia | apply Z.div_le_upper_bound; lia]).
  destruct m as [[rx ry rw rh] flag].
  unfold settled in Hset. cbn [rect x y width height] in Hset.
  destruct Hset as (Hx & Hy & Hr & Hb & Hext).
  rewrite sanitize_exact by (cbn [rect x y width height]; try assumption; lia).
  rewrite Intersect_exact by (cbn [rect x y width height]; try assumption; lia).
  cbn [rect x y width height maximized].
  match goal with
  | |- context [if ?c then _ else _] => destruct c eqn:E
  end; cbn [x y width height].
  - apply orb_true_iff in E.
    rewrite !Z.leb_le in E. do 2 f_equal; lia.
  - apply orb_false_elim in E as [Ew Eh].
    apply Z.leb_gt in Ew. apply Z.leb_gt in Eh. do 2 f_equal; lia.
Qed.

(** X6.  A restart keeps the geometry of a well-placed window: the metrics
    captured with [from_window] from a window whose screen rectangle is
    settled for the screen, written with [serialize], read with
    [deserialize] and passed through [sanitize_for_display] for the same
    screen are the captured metrics again. *)
Theorem restart_keeps_settled_window (window : wxTopLevelWindow)
  (screen_rect : wxRect) :
  within_limits (GetScreenRect window) -> within_limits screen_rect ->
  threshold_defined screen_rect ->
  settled (GetScreenRect window) screen_rect ->
  option_map (fun m => sanitize_for_display m screen_rect)
             (deserialize (serialize (from_window window)))
  = Some (from_window window).
Proof.
  intros Hw Hs Ht Hset.
  rewrite serialize_read_back
    by (apply within_limits_int_fields; exact Hw).
  cbn [option_map]. f_equal. now apply sanitize_settled.
Qed.

Lemma restart_keeps_settled_window_witness :
  let window := mk_wxTopLevelWindow (mk_wxRect 100 50 800 600) true in
  let screen_rect := mk_wxRect 0 0 1920 1080 in
  option_map (fun m => sanitize_for_display m screen_rect)
             (deserialize (serialize (from_window window)))
  = Some (from_window window).
Proof.
  intros window screen_rect.
  apply (restart_keeps_settled_window window screen_rect);
    unfold within_limits, threshold_defined, settled, Int.INT_MAX;
    cbn; lia.
Defined.

(** X7.  The sanitized rectangle is settled for the screen: it lies inside
    the screen rectangle, on the left and top edges as well, and its extents
    are both positive or both zero. *)
Theorem sanitize_result_settled (m : WindowMetrics) (screen_rect : wxRect) :
  within_limits (rect m) -> within_limits screen_rect ->
  threshold_defined screen_rect ->
  settled (rect (sanitize_for_display m screen_rect)) screen_rect.
Proof. intros Hm Hs Ht. now apply sanitize_settles. Qed.

Lemma sanitize_result_settled_witness :
  let m := mk_WindowMetrics (mk_wxRect (-200) 900 800 600) false in
  let screen_rect := mk_wxRect 0 0 1920 1080 in
  settled (rect (sanitize_for_display m screen_rect)) screen_rect.
Proof.
  intros m screen_rect.
  apply (sanitize_result_settled m screen_rect);
    unfold within_limits, threshold_defined, Int.INT_MAX; cbn; lia.
Defined.

(** X8.  [sanitize_for_display] is idempotent: sanitizing for the same
    screen a second time changes nothing. *)
Theorem sanitize_idempotent (m : WindowMetrics) (screen_rect : wxRect) :
  within_limits (rect m) -> within_limits screen_rect ->
  threshold_defined screen_rect ->
  sanitize_for_display (sanitize_for_display m screen_rect) screen_rect
  = sanitize_for_display m screen_rect.
Proof.
  intros Hm Hs Ht. apply sanitize_settled; try assumption.
  now apply sanitize_settles.
Qed.

Lemma sanitize_idempotent_witness :
  let m := mk_WindowMetrics (mk_wxRect 1800 1000 300 200) true in
  let screen_rect := mk_wxRect 0 0 1920 1080 in
  sanitize_for_display (sanitize_for_display m screen_rect) screen_rect
  = sanitize_for_display m screen_rect.
Proof.
  intros m screen_rect.
  apply (sanitize_idempotent m screen_rect);
    unfold within_limits, threshold_defined, Int.INT_MAX; cbn; lia.
Defined.

(** X9.  Metrics whose rectangle is settled for the screen are returned by
    [sanitize_for_display] as they are, position, extents and flag. *)
Theorem sanitize_keeps_settled (m : WindowMetrics) (screen_rect : wxRect) :
  within_limits screen_rect -> threshold_defined screen_rect ->
  settled (rect m) screen_rect ->
  sanitize_for_display m screen_rect = m.
Proof. exact (sanitize_settled m screen_rect). Qed.

Lemma sanitize_keeps_settled_witness :
  let m := mk_WindowMetrics (mk_wxRect 1536 864 384 216) false in
  sanitize_for_display m (mk_wxRect 0 0 1920 1080) = m.
Proof.
  intros m.
  apply (sanitize_keeps_settled m (mk_wxRect 0 0 1920 1080));
    unfold within_limits, threshold_defined, settled, Int.INT_MAX;
    cbn; lia.
Defined.

(** X10.  [sanitize_for_display] never enlarges a rectangle and never
    touches the maximized flag. *)
Theorem sanitize_never_grows (m : WindowMetrics) (screen_rect : wxRect) :
  maximized (sanitize_for_display m screen_rect) = maximized m /\
  (within_limits (rect m) -> within_limits screen_rect ->
   threshold_defined screen_rect ->
   width (rect (sanitize_for_display m screen_rect)) <= width (rect m) /\
   height (rect (sanitize_for_display m screen_rect)) <= height (rect m)).
Proof.
  split; [reflexivity | ].
  intros Hm Hs Ht. now apply sanitize_settles.
Qed.

Lemma sanitize_never_grows_witness :
  let m := mk_WindowMetrics (mk_wxRect 1800 (-50) 300 200) true in
  let screen_rect := mk_wxRect 0 0 1920 1080 in
  width (rect (sanitize_for_display m screen_rect)) <= 300 /\
  height (rect (sanitize_for_display m screen_rect)) <= 200.
Proof.
  intros m screen_rect.
  apply (proj2 (sanitize_never_grows m screen_rect));
    unfold within_limits, threshold_defined, Int.INT_MAX; cbn; lia.
Defined.

End Sanitized.

(** ** Dynamic lookup and its statics *)

Section DynamicLookup.

Import Dpi DpiModel.

Lemma FnType_eqb_refl (F : FnType) : FnType_eqb F F = true.
Proof. destruct F; reflexivity. Qed.

(** X11.  A library that fails to load is not tried again: the first call
    of [winapi_get_function] for an instantiation logs the one load, returns
    null without looking any symbol up, and every later call of the same
    instantiation, whatever its arguments, returns null without touching the
    platform. *)
Theorem failed_load_is_final (api : WinApi) (F : FnType)
  (dll fn_name : string) (st : Statics) :
  dll_handle st F = None -> LoadLibraryExW api dll = None ->
  let first := winapi_get_function api F dll fn_name st in
  fst first = None /\
  probes (snd first) = (probes st ++ [ProbeLibrary dll])%list /\
  forall dll' fn_name',
    winapi_get_function api F dll' fn_name' (snd first) = (None, snd first).
Proof.
  intros Hd Hl. unfold winapi_get_function. rewrite Hd, Hl. cbn.
  repeat split. intros dll' fn_name'. cbn.
  rewrite FnType_eqb_refl. reflexivity.
Qed.

Lemma failed_load_is_final_witness :
  let first := winapi_get_function windows7 GetDpiForMonitor_t
                 "Shcore.dll" "GetDpiForMonitor" process_start in
  fst first = None /\
  probes (snd first) = [ProbeLibrary "Shcore.dll"] /\
  forall dll' fn_name',
    winapi_get_function windows7 GetDpiForMonitor_t dll' fn_name'
      (snd first) = (None, snd first).
Proof.
  exact (failed_load_is_final windows7 GetDpiForMonitor_t
           "Shcore.dll" "GetDpiForMonitor" process_start eq_refl eq_refl).
Defined.

(** X12.  The library handle of an instantiation is fixed by its first
    call: a later call of the same instantiation with another library name
    loads nothing and looks its symbol up in the library loaded first. *)
Theorem library_handle_fixed_by_first_call (api : WinApi) (F : FnType)
  (dll1 fn1 dll2 fn2 : string) (st : Statics) (h : HINSTANCE) :
  dll_handle st F = None -> LoadLibraryExW api dll1 = Some h ->
  let first := winapi_get_function api F dll1 fn1 st in
  let second := winapi_get_function api F dll2 fn2 (snd first) in
  fst first = GetProcAddress api h fn1 /\
  fst second = GetProcAddress api h fn2 /\
  probes (snd second)
  = (probes st ++ [ProbeLibrary dll1; ProbeSymbol fn1; ProbeSymbol fn2])%list.
Proof.
  intros Hd Hl. unfold winapi_get_function. rewrite Hd, Hl. cbn.
  rewrite FnType_eqb_refl. cbn. repeat split.
  now rewrite <- !app_assoc.
Qed.

Lemma library_handle_fixed_by_first_call_witness :
  let first := winapi_get_function windows10 GetDpiForWindow_t
                 "User32.dll" "GetDpiForWindow" process_start in
  let second := winapi_get_function windows10 GetDpiForWindow_t
                  "Shcore.dll" "GetDpiForMonitor" (snd first) in
  fst first = Some 10%nat /\ fst second = Some 20%nat /\
  probes (snd second)
  = [ProbeLibrary "User32.dll"; ProbeSymbol "GetDpiForWindow";
     ProbeSymbol "GetDpiForMonitor"].
Proof.
  exact (library_handle_fixed_by_first_call windows10 GetDpiForWindow_t
           "User32.dll" "GetDpiForWindow" "Shcore.dll" "GetDpiForMonitor"
           process_start 1%nat eq_refl eq_refl).
Defined.

Variable DPI_DEFAULT : Z.

(** Called the way the resolver calls it, [winapi_get_function] returns what
    a fresh lookup returns and keeps the statics consistent. *)
Lemma winapi_get_function_lookup (api : WinApi) (F : FnType)
  (fn_name : string) (st : Statics) :
  consistent api st ->
  exists st',
    winapi_get_function api F (dll_of F) fn_name st
    = (lookup api (dll_of F) fn_name, st') /\
    consistent api st' /\
    GetDpiForWindow_fn st' = GetDpiForWindow_fn st /\
    GetDpiForMonitor_fn st' = GetDpiForMonitor_fn st.
Proof.
  intros (Hd & HW & HM). unfold winapi_get_function, lookup.
  assert (forall s : Statics,
             GetDpiForWindow_fn s = GetDpiForWindow_fn st ->
             GetDpiForMonitor_fn s = GetDpiForMonitor_fn st ->
             (forall G, dll_handle s G = None \/
                        dll_handle s G = Some (LoadLibraryExW api (dll_of G))) ->
             consistent api s) as Hcons.
  { intros s EW EM Hs. unfold consistent. rewrite EW, EM. auto. }
  destruct (Hd F) as [E | E]; rewrite E.
  - destruct (LoadLibraryExW api (dll_of F)) as [h | ] eqn:El;
      eexists; (split; [reflexivity | ]); (split; [ | split; reflexivity]);
      apply Hcons; try reflexivity; intros G; cbn;
      destruct (FnType_eqb G F) eqn:EG; auto;
      right; destruct G, F; try discriminate; now rewrite El.
  - destruct (LoadLibraryExW api (dll_of F)) as [h | ];
      eexists; (split; [reflexivity | ]); (split; [ | split; reflexivity]);
      apply Hcons; try reflexivity; exact Hd.
Qed.

Lemma get_dpi_for_window_resolve (api : WinApi) (window : option wxWindow)
  (st : Statics) :
  consistent api st ->
  exists st',
    get_dpi_for_window DPI_DEFAULT Win32 api window st
    = (resolve DPI_DEFAULT api window, st') /\
    consistent api st'.
Proof.
  intros Hc. unfold get_dpi_for_window, resolve.
  assert (exists st1,
             init_GetDpiForWindow_fn api st
             = (lookup api "User32.dll" "GetDpiForWindow", st1) /\
             consistent api st1) as (st1 & -> & Hc1).
  { unfold init_GetDpiForWindow_fn.
    destruct Hc as (Hd & [EW | EW] & HM); rewrite EW.
    - destruct (winapi_get_function_lookup api GetDpiForWindow_t
                  "GetDpiForWindow" st)
        as (st' & E & (Hd' & _ & HM') & _ & EM);
        [unfold consistent; auto | ].
      cbn [dll_of] in E. rewrite E. eexists. split; [reflexivity | ].
      unfold consistent; cbn. auto.
    - eexists. split; [reflexivity | ]. unfold consistent; auto. }
  assert (exists st2,
             init_GetDpiForMonitor_fn api st1
             = (lookup api "Shcore.dll" "GetDpiForMonitor", st2) /\
             consistent api st2) as (st2 & -> & Hc2).
  { unfold init_GetDpiForMonitor_fn.
    destruct Hc1 as (Hd & HW & [EM | EM]); rewrite EM.
    - destruct (winapi_get_function_lookup api GetDpiForMonitor_t
                  "GetDpiForMonitor" st1)
        as (st' & E & (Hd' & HW' & _) & EW & _);
        [unfold consistent; auto | ].
      cbn [dll_of] in E. rewrite E. eexists. split; [reflexivity | ].
      unfold consistent; cbn. auto.
    - eexists. split; [reflexivity | ]. unfold consistent; auto. }
  eexists. split; [reflexivity | exact Hc2].
Qed.

Lemma run_calls_resolve (api : WinApi) (calls : list (option wxWindow)) :
  forall st, consistent api st ->
  fst (run_calls DPI_DEFAULT Win32 api calls st)
  = map (resolve DPI_DEFAULT api) calls.
Proof.
  induction calls as [ | w calls IH]; intros st Hc; cbn [run_calls map].
  - reflexivity.
  - destruct (get_dpi_for_window_resolve api w st Hc) as (st' & -> & Hc').
    specialize (IH st' Hc').
    destruct (run_calls DPI_DEFAULT Win32 api calls st') as [rs st''].
    cbn [fst] in IH |- *. now rewrite IH.
Qed.

Lemma process_start_consistent (api : WinApi) : consistent api process_start.
Proof. unfold consistent, process_start; cbn. auto. Qed.

(** X13.  The statics are transparent: in a process on Windows every call
    of [get_dpi_for_window], the first as well as any later one, returns
    what the fallback chain gives on freshly looked-up capabilities; on the
    other platforms every call returns [DPI_DEFAULT]. *)
Theorem resolver_results_ignore_history (platform : Platform)
  (api : WinApi) (calls : list (option wxWindow)) :
  fst (run_calls DPI_DEFAULT platform api calls process_start)
  = map (fun window =>
           match platform with
           | Win32 => resolve DPI_DEFAULT api window
           | _ => DPI_DEFAULT
           end) calls.
Proof.
  destruct platform.
  - apply run_calls_resolve, process_start_consistent.
  - generalize process_start.
    induction calls as [ | w calls IH]; intros st; cbn; [reflexivity | ].
    specialize (IH st).
    destruct (run_calls DPI_DEFAULT Linux api calls st). cbn in *.
    now rewrite IH.
  - generalize process_start.
    induction calls as [ | w calls IH]; intros st; cbn; [reflexivity | ].
    specialize (IH st).
    destruct (run_calls DPI_DEFAULT Apple api calls st). cbn in *.
    now rewrite IH.
Qed.

(** X14.  The per-window query has priority: on a platform where
    [GetDpiForWindow] resolves, every call returns its answer for the
    window's handle, or for the desktop window when the argument is null;
    the per-monitor query and the device context are never consulted. *)
Theorem per_window_query_has_priority (api : WinApi) (f : FARPROC)
  (calls : list (option wxWindow)) :
  lookup api "User32.dll" "GetDpiForWindow" = Some f ->
  fst (run_calls DPI_DEFAULT Win32 api calls process_start)
  = map (fun window => call_GetDpiForWindow api f (hwnd_of api window))
        calls.
Proof.
  intros Hf.
  rewrite run_calls_resolve by apply process_start_consistent.
  apply map_ext. intros window.
  unfold resolve, win32_chain. rewrite Hf. reflexivity.
Qed.

End DynamicLookup.

Section DynamicLookupWitnesses.

Import Dpi DpiModel.

Lemma per_window_query_has_priority_witness :
  fst (run_calls 96 Win32 windows10
         [None; Some (mk_wxWindow 3%nat)] process_start)
  = [96; 120].
Proof.
  exact (per_window_query_has_priority 96 windows10 10%nat
           [None; Some (mk_wxWindow 3%nat)] eq_refl).
Defined.

End DynamicLookupWitnesses.

(** ** Window-ready notification over several events and registrations *)

Section NotifierOverTime.

Import Notifier NotifierRuns.

Lemma callbacks_run_app (a b : list Obs) :
  callbacks_run (a ++ b) = (callbacks_run a ++ callbacks_run b)%list.
Proof.
  induction a as [ | o a IH]; [reflexivity | ].
  destruct o; simpl; rewrite IH; reflexivity.
Qed.

(** One show event with the following loop iteration, on a window that
    carries the Linux handler only. *)
Lemma linux_cycle (cb : Callback) (tr : list Obs) :
  loop_iteration (show_event (mk_World [linux_body cb] [] tr))
  = mk_World [linux_body cb] []
      (tr ++ [ObsHandlerEnter; ObsHandlerReturn true;
              ObsLoopIteration; ObsCallback cb]).
Proof.
  unfold show_event, linux_body. cbn [show_handlers propagate].
  rewrite linux_handler. cbn [propagate].
  unfold loop_iteration; cbn. unfold run_callback, observe; cbn.
  now rewrite <- !app_assoc.
Qed.

Lemma apple_cycle (cb : Callback) (tr : list Obs) :
  loop_iteration (show_event (mk_World [apple_body cb] [] tr))
  = mk_World [apple_body cb] []
      (tr ++ [ObsHandlerEnter; ObsCallback cb; ObsHandlerReturn true;
              ObsLoopIteration]).
Proof.
  unfold show_event, apple_body. cbn [show_handlers propagate].
  rewrite apple_handler. cbn [propagate].
  unfold loop_iteration, observe; cbn.
  now rewrite <- !app_assoc.
Qed.

Lemma linux_cycles (cb : Callback) (n : nat) :
  forall tr,
    callbacks_run (trace (show_cycles n (mk_World [linux_body cb] [] tr)))
    = (callbacks_run tr ++ repeat cb n)%list.
Proof.
  induction n as [ | n IH]; intros tr; cbn [show_cycles repeat].
  - cbn. now rewrite app_nil_r.
  - rewrite linux_cycle, IH, callbacks_run_app. cbn.
    now rewrite <- app_assoc.
Qed.

Lemma apple_cycles (cb : Callback) (n : nat) :
  forall tr,
    callbacks_run (trace (show_cycles n (mk_World [apple_body cb] [] tr)))
    = (callbacks_run tr ++ repeat cb n)%list.
Proof.
  induction n as [ | n IH]; intros tr; cbn [show_cycles repeat].
  - cbn. now rewrite app_nil_r.
  - rewrite apple_cycle, IH, callbacks_run_app. cbn.
    now rewrite <- app_assoc.
Qed.

Lemma bare_cycles (n : nat) :
  forall tr,
    callbacks_run (trace (show_cycles n (mk_World [] [] tr)))
    = callbacks_run tr.
Proof.
  induction n as [ | n IH]; intros tr; cbn [show_cycles].
  - reflexivity.
  - unfold show_event, loop_iteration, observe; cbn.
    rewrite IH, callbacks_run_app. cbn. now rewrite app_nil_r.
Qed.

(** X15.  The registration is not consumed by the first notification.  On
    Linux and on macOS the handler stays bound, so a window shown [n] times
    runs the callback [n] times; on Windows the callback runs once, at
    registration, and no show event runs it again. *)
Theorem callback_runs_per_show_event (cb : Callback) (n : nat) :
  callbacks_run
    (trace (show_cycles n (on_window_geometry Win32 cb fresh_window)))
  = [cb] /\
  callbacks_run
    (trace (show_cycles n (on_window_geometry Linux cb fresh_window)))
  = repeat cb n /\
  callbacks_run
    (trace (show_cycles n (on_window_geometry Apple cb fresh_window)))
  = repeat cb n.
Proof.
  repeat split.
  - apply (bare_cycles n [ObsCallback cb]).
  - apply (linux_cycles cb n []).
  - apply (apple_cycles cb n []).
Qed.

(** Handlers bound by [register_all], latest first. *)
Lemma register_all_linux (cbs : list Callback) :
  forall w,
    register_all Linux cbs w
    = mk_World (map linux_body (List.rev cbs) ++ show_handlers w)
               (pending w) (trace w).
Proof.
  unfold register_all.
  induction cbs as [ | cb cbs IH]; intros w; cbn [fold_left List.rev map].
  - now destruct w.
  - rewrite IH. cbn. now rewrite map_app, <- app_assoc.
Qed.

Lemma register_all_apple (cbs : list Callback) :
  forall w,
    register_all Apple cbs w
    = mk_World (map apple_body (List.rev cbs) ++ show_handlers w)
               (pending w) (trace w).
Proof.
  unfold register_all.
  induction cbs as [ | cb cbs IH]; intros w; cbn [fold_left List.rev map].
  - now destruct w.
  - rewrite IH. cbn. now rewrite map_app, <- app_assoc.
Qed.

(** Each Linux handler queues its closure and lets the event pass on. *)
Lemma propagate_linux (l : list Callback) :
  forall w,
    propagate (map linux_body l) w
    = mk_World (show_handlers w)
        (pending w ++ map (fun cb => [DCallback cb]) l)
        (trace w
         ++ flat_map (fun _ => [ObsHandlerEnter; ObsHandlerReturn true]) l).
Proof.
  induction l as [ | cb l IH]; intros w; cbn [map propagate flat_map].
  - rewrite !app_nil_r. now destruct w.
  - unfold linux_body at 1. rewrite linux_handler, IH. cbn.
    now rewrite <- !app_assoc.
Qed.

(** Each macOS handler runs its callback and lets the event pass on. *)
Lemma propagate_apple (l : list Callback) :
  forall w,
    propagate (map apple_body l) w
    = mk_World (show_handlers w) (pending w)
        (trace w
         ++ flat_map (fun cb => [ObsHandlerEnter; ObsCallback cb;
                                 ObsHandlerReturn true]) l).
Proof.
  induction l as [ | cb l IH]; intros w; cbn [map propagate flat_map].
  - rewrite !app_nil_r. now destruct w.
  - unfold apple_body at 1. rewrite apple_handler, IH. cbn.
    now rewrite <- !app_assoc.
Qed.

(** The queue of closures runs in the order of queueing. *)
Lemma run_queue (l : list Callback) :
  forall w,
    fold_left (fun acc body => fold_left exec_deferred body acc)
              (map (fun cb => [DCallback cb]) l) w
    = mk_World (show_handlers w) (pending w)
               (trace w ++ map ObsCallback l).
Proof.
  induction l as [ | cb l IH]; intros w; cbn [map fold_left].
  - rewrite app_nil_r. now destruct w.
  - rewrite IH. unfold exec_deferred, run_callback, observe; cbn.
    now rewrite <- app_assoc.
Qed.

Lemma callbacks_run_entries (l : list Callback) :
  callbacks_run
    (flat_map (fun _ : Callback => [ObsHandlerEnter; ObsHandlerReturn true]) l)
  = [].
Proof. induction l; cbn; auto. Qed.

Lemma callbacks_run_handlers (l : list Callback) :
  callbacks_run
    (flat_map (fun cb => [ObsHandlerEnter; ObsCallback cb;
                          ObsHandlerReturn true]) l)
  = l.
Proof. induction l as [ | cb l IH]; cbn; [ | rewrite IH]; reflexivity. Qed.

Lemma callbacks_run_map (l : list Callback) :
  callbacks_run (map ObsCallback l) = l.
Proof. induction l as [ | cb l IH]; cbn; [ | rewrite IH]; reflexivity. Qed.

(** X16.  Several registrations on one window are all served by one show
    event, the latest registration first: each handler skips the event, so
    it reaches the handlers bound before.  On macOS the callbacks run during
    the event; on Linux none runs during the event and all run, in the same
    order, in the following iteration of the event loop. *)
Theorem every_registration_is_served (cbs : list Callback) :
  callbacks_run
    (trace (show_event (register_all Apple cbs fresh_window)))
  = List.rev cbs /\
  callbacks_run
    (trace (show_event (register_all Linux cbs fresh_window)))
  = [] /\
  callbacks_run
    (trace (loop_iteration
              (show_event (register_all Linux cbs fresh_window))))
  = List.rev cbs.
Proof.
  rewrite register_all_apple, register_all_linux.
  unfold show_event, fresh_window. cbn [show_handlers pending trace].
  rewrite !app_nil_r, propagate_apple, propagate_linux.
  cbn [show_handlers pending trace].
  repeat split.
  - apply callbacks_run_handlers.
  - apply callbacks_run_entries.
  - unfold loop_iteration. cbn [show_handlers pending trace].
    rewrite !app_nil_l, run_queue.
    unfold observe; cbn [show_handlers pending trace].
    rewrite !callbacks_run_app, callbacks_run_entries, callbacks_run_map.
    reflexivity.
Qed.

End NotifierOverTime.

(** ** CheckboxFileDialog: the value read after clicks *)

Section CheckboxClicks.

Import Checkbox.

Lemma clicks_toggle (n : nat) :
  forall (d : CheckboxFileDialog) (p : ExtraPanel),
    m_extraControl d = Some (CtlExtraPanel p) ->
    m_extraControl (run (repeat EvClick n) d)
    = Some (CtlExtraPanel
              (mk_ExtraPanel (cbox_label p)
                 (if Nat.even n then cbox_value p
                  else negb (cbox_value p)))).
Proof.
  unfold run.
  induction n as [ | n IH]; intros d p Hp.
  - cbn. rewrite Hp. now destruct p.
  - cbn [repeat fold_left step].
    rewrite (IH (click d) (SetValue p (negb (cbox_value p))))
      by (unfold click; rewrite Hp; reflexivity).
    rewrite Nat.even_succ, <- Nat.negb_even. cbn [SetValue cbox_label cbox_value].
    destruct (Nat.even n); cbn [negb]; try reflexivity.
    now rewrite negb_involutive.
Qed.

(** X17.  A dialog constructed with a non-empty label shows a panel that
    carries this label, and after [n] clicks on the checkbox
    [get_checkbox_value] reads [true] when [n] is even and [false] when it
    is odd, whatever [checkbox_value] the constructor was given. *)
Theorem checkbox_value_after_clicks (label : string)
  (checkbox_value measure : bool) (n : nat) :
  IsEmpty label = false ->
  let d := run (EvShow measure :: repeat EvClick n)
               (CheckboxFileDialog_new label checkbox_value) in
  m_extraControl d
  = Some (CtlExtraPanel (mk_ExtraPanel label (Nat.even n))) /\
  get_checkbox_value d = Nat.even n.
Proof.
  intros Hl d.
  assert (m_extraControl d
          = Some (CtlExtraPanel (mk_ExtraPanel label (Nat.even n)))) as E.
  { subst d. unfold run. cbn [fold_left step].
    rewrite (clicks_toggle n _ (mk_ExtraPanel label true))
      by (unfold CheckboxFileDialog_new; rewrite Hl; reflexivity).
    cbn [cbox_label cbox_value]. now destruct (Nat.even n). }
  split; [exact E | ].
  unfold get_checkbox_value. rewrite E. reflexivity.
Qed.

Lemma checkbox_value_after_clicks_witness :
  get_checkbox_value
    (run [EvShow true; EvClick; EvClick; EvClick]
         (CheckboxFileDialog_new "Export as binary" true))
  = false.
Proof.
  exact (proj2 (checkbox_value_after_clicks
                  "Export as binary" true true 3 eq_refl)).
Defined.

End CheckboxClicks.

(** ** DPI resolution: fallbacks and the cost of probing *)

Section ResolverFallbacks.

Import Dpi DpiModel.

Variable DPI_DEFAULT : Z.

(** X18.  The failure paths of the Windows chain end in [DPI_DEFAULT]: with
    no per-window query, a per-monitor query that does not answer [S_OK]
    gives the default, whatever it left in its out-parameters; and with
    neither query, a window without device context gives the default. *)
Theorem failed_queries_give_default (api : WinApi)
  (window : option wxWindow) :
  lookup api "User32.dll" "GetDpiForWindow" = None ->
  (forall f hr dpiX dpiY,
      lookup api "Shcore.dll" "GetDpiForMonitor" = Some f ->
      call_GetDpiForMonitor api f
        (MonitorFromWindow api (hwnd_of api window) MONITOR_DEFAULTTONEAREST)
        MDT_EFFECTIVE_DPI_ = (hr, dpiX, dpiY) ->
      hr <> S_OK ->
      fst (get_dpi_for_window DPI_DEFAULT Win32 api window process_start)
      = DPI_DEFAULT) /\
  (lookup api "Shcore.dll" "GetDpiForMonitor" = None ->
   GetDC api (hwnd_of api window) = None ->
   fst (get_dpi_for_window DPI_DEFAULT Win32 api window process_start)
   = DPI_DEFAULT).
Proof.
  intros HW.
  destruct (get_dpi_for_window_resolve DPI_DEFAULT api window process_start
              (process_start_consistent api)) as (st' & -> & _).
  cbn [fst]. unfold resolve, win32_chain. rewrite HW.
  fold (hwnd_of api window). split.
  - intros f hr dpiX dpiY HM Hcall Hr. rewrite HM, Hcall.
    destruct (Z.eqb_spec hr S_OK); [contradiction | reflexivity].
  - intros HM Hdc. rewrite HM, Hdc. reflexivity.
Qed.

Lemma init_GetDpiForWindow_fn_known (api : WinApi) (st : Statics) :
  incl (probes st) (window_probes ++ monitor_probes) ->
  incl (probes (snd (init_GetDpiForWindow_fn api st)))
       (window_probes ++ monitor_probes).
Proof.
  intros Hin. unfold init_GetDpiForWindow_fn.
  destruct (GetDpiForWindow_fn st); [exact Hin | ].
  pose proof (winapi_get_function_effect api GetDpiForWindow_t
                "User32.dll" "GetDpiForWindow" st) as Heff.
  destruct (winapi_get_function _ _ _ _ _) as [f st0].
  cbn [snd] in Heff |- *. destruct Heff as (_ & _ & l & -> & _ & Hl).
  cbn [probes]. apply incl_app; [exact Hin | ].
  intros p Hp. apply in_or_app. left. exact (Hl p Hp).
Qed.

Lemma init_GetDpiForMonitor_fn_known (api : WinApi) (st : Statics) :
  incl (probes st) (window_probes ++ monitor_probes) ->
  incl (probes (snd (init_GetDpiForMonitor_fn api st)))
       (window_probes ++ monitor_probes).
Proof.
  intros Hin. unfold init_GetDpiForMonitor_fn.
  destruct (GetDpiForMonitor_fn st); [exact Hin | ].
  pose proof (winapi_get_function_effect api GetDpiForMonitor_t
                "Shcore.dll" "GetDpiForMonitor" st) as Heff.
  destruct (winapi_get_function _ _ _ _ _) as [f st0].
  cbn [snd] in Heff |- *. destruct Heff as (_ & _ & l & -> & _ & Hl).
  cbn [probes]. apply incl_app; [exact Hin | ].
  intros p Hp. apply in_or_app. right. exact (Hl p Hp).
Qed.

Lemma run_calls_known (platform : Platform) (api : WinApi)
  (calls : list (option wxWindow)) :
  forall st,
    incl (probes st) (window_probes ++ monitor_probes) ->
    incl (probes (snd (run_calls DPI_DEFAULT platform api calls st)))
         (window_probes ++ monitor_probes).
Proof.
  induction calls as [ | w calls IH]; intros st Hin; cbn [run_calls].
  - exact Hin.
  - assert (incl (probes (snd (get_dpi_for_window DPI_DEFAULT platform
                                 api w st)))
                 (window_probes ++ monitor_probes)) as H1.
    { destruct platform; cbn; try exact Hin.
      pose proof (init_GetDpiForWindow_fn_known api st Hin) as Ha.
      destruct (init_GetDpiForWindow_fn api st) as [fnW st1].
      cbn [snd] in Ha.
      pose proof (init_GetDpiForMonitor_fn_known api st1 Ha) as Hb.
      destruct (init_GetDpiForMonitor_fn api st1) as [fnM st2].
      exact Hb. }
    destruct (get_dpi_for_window DPI_DEFAULT platform api w st) as [r st1].
    specialize (IH st1 H1).
    destruct (run_calls DPI_DEFAULT platform api calls st1) as [rs st2].
    exact IH.
Qed.

(** X19.  However often the resolver is called in a process, it performs at
    most four dynamic lookups altogether: two library loads and two symbol
    lookups. *)
Theorem resolver_probes_at_most_four (platform : Platform) (api : WinApi)
  (calls : list (option wxWindow)) :
  (List.length
     (probes (snd (run_calls DPI_DEFAULT platform api calls process_start)))
   <= 4)%nat.
Proof.
  change 4%nat with (List.length (window_probes ++ monitor_probes)).
  apply NoDup_incl_length.
  - apply (run_calls_invariant DPI_DEFAULT platform api calls process_start).
    unfold probe_invariant, process_start; cbn.
    split; [constructor | auto].
  - apply run_calls_known. intros p [].
Qed.

Lemma run_calls_consistent (platform : Platform) (api : WinApi)
  (calls : list (option wxWindow)) :
  forall st, consistent api st ->
  consistent api (snd (run_calls DPI_DEFAULT platform api calls st)).
Proof.
  induction calls as [ | w calls IH]; intros st Hc; cbn [run_calls].
  - exact Hc.
  - assert (consistent api
              (snd (get_dpi_for_window DPI_DEFAULT platform api w st)))
      as H1.
    { destruct platform; cbn; try exact Hc.
      destruct (get_dpi_for_window_resolve DPI_DEFAULT api w st Hc)
        as (st' & E & Hc'). cbn in E. rewrite E. exact Hc'. }
    destruct (get_dpi_for_window DPI_DEFAULT platform api w st) as [r st1].
    specialize (IH st1 H1).
    destruct (run_calls DPI_DEFAULT platform api calls st1) as [rs st2].
    exact IH.
Qed.

(** The chain on answers that are DPI values for the queried handle. *)
Lemma resolve_positive (api : WinApi) (window : option wxWindow) :
  0 < DPI_DEFAULT -> answers_dpi_for api (hwnd_of api window) ->
  0 < resolve DPI_DEFAULT api window.
Proof.
  intros Hd (HW & HM & HC). unfold resolve, win32_chain.
  fold (hwnd_of api window).
  destruct (lookup api "User32.dll" "GetDpiForWindow") as [f | ];
    [apply HW | ].
  destruct (lookup api "Shcore.dll" "GetDpiForMonitor") as [f | ].
  - destruct (call_GetDpiForMonitor api f _ _) as [[hr dpiX] dpiY] eqn:E.
    destruct (Z.eqb_spec hr S_OK) as [Hr | _]; [ | assumption].
    pose proof (HM _ _ _ _ E Hr) as Hx.
    rewrite wrap_id; [lia | ].
    unfold Int.in_range, Int.INT_MIN, Int.INT_MAX in *. lia.
  - destruct (GetDC api (hwnd_of api window)) as [hdc | ] eqn:E;
      [now apply HC | assumption].
Qed.

(** C6, amended.  [get_dpi_for_window] is total over "window or none", at
    any point of a process.  On the platforms without a native query it
    returns [DPI_DEFAULT].  On Windows it returns, unchecked, the answer of
    the first query of the chain that is available, asked for the handle of
    the window or for the desktop window when there is none: the per-window
    query; else the per-monitor query for the monitor of that handle, with
    [DPI_DEFAULT] when it does not answer [S_OK]; else the device context of
    that handle, with [DPI_DEFAULT] when there is none.  The result is
    positive when [DPI_DEFAULT] is and the platform's answers for that one
    handle are. *)
Theorem get_dpi_for_window_chain (platform : Platform) (api : WinApi)
  (history : list (option wxWindow)) (window : option wxWindow) :
  let st := snd (run_calls DPI_DEFAULT platform api history process_start) in
  let r := fst (get_dpi_for_window DPI_DEFAULT platform api window st) in
  let hwnd := hwnd_of api window in
  (platform <> Win32 -> r = DPI_DEFAULT) /\
  (platform = Win32 ->
   match lookup api "User32.dll" "GetDpiForWindow" with
   | Some f => r = call_GetDpiForWindow api f hwnd
   | None =>
       match lookup api "Shcore.dll" "GetDpiForMonitor" with
       | Some f =>
           r = (let '(hr, dpiX, _) :=
                  call_GetDpiForMonitor api f
                    (MonitorFromWindow api hwnd MONITOR_DEFAULTTONEAREST)
                    MDT_EFFECTIVE_DPI_ in
                if hr =? S_OK then Int.wrap dpiX else DPI_DEFAULT)
       | None =>
           r = match GetDC api hwnd with
               | None => DPI_DEFAULT
               | Some hdc => GetDeviceCaps api hdc LOGPIXELSX
               end
       end
   end) /\
  (0 < DPI_DEFAULT -> answers_dpi_for api hwnd -> 0 < r).
Proof.
  intros st r hwnd.
  destruct platform.
  - destruct (get_dpi_for_window_resolve DPI_DEFAULT api window st)
      as (st' & E & _).
    { apply run_calls_consistent, process_start_consistent. }
    assert (r = resolve DPI_DEFAULT api window) as ->
      by (subst r; rewrite E; reflexivity).
    split; [congruence | ]. split.
    + intros _. unfold resolve, win32_chain. fold (hwnd_of api window).
      fold hwnd.
      destruct (lookup api "User32.dll" "GetDpiForWindow");
        [reflexivity | ].
      destruct (lookup api "Shcore.dll" "GetDpiForMonitor"); reflexivity.
    + apply resolve_positive.
  - subst r. cbn. split; [reflexivity | ]. split; [discriminate | auto].
  - subst r. cbn. split; [reflexivity | ]. split; [discriminate | auto].
Qed.

End ResolverFallbacks.

Section ResolverFallbackWitnesses.

Import Dpi DpiModel.

(** With [GetDpiForWindow] answering 0 for the null handle, the resolver
    returns 0 for a window whose native window has not been created: the
    result is not positive. *)
Lemma get_dpi_for_window_zero_counterexample :
  ~ 0 < fst (get_dpi_for_window 96 Win32 windows10_null_handle
               (Some (mk_wxWindow 0%nat)) process_start).
Proof. cbv. discriminate. Qed.

Lemma get_dpi_for_window_chain_witness :
  0 < fst (get_dpi_for_window 96 Win32 windows10_null_handle
             (Some (mk_wxWindow 4%nat))
             (snd (run_calls 96 Win32 windows10_null_handle
                     [None; Some (mk_wxWindow 0%nat)] process_start))).
Proof.
  apply (get_dpi_for_window_chain 96 Win32 windows10_null_handle
           [None; Some (mk_wxWindow 0%nat)] (Some (mk_wxWindow 4%nat))).
  - lia.
  - unfold answers_dpi_for; cbn. split; [ | split].
    + intros _. lia.
    + intros f hr dpiX dpiY [= <- <- <-] _. cbv. split; congruence.
    + intros hdc _. lia.
Defined.

Lemma failed_queries_give_default_witness :
  fst (get_dpi_for_window 96 Win32 bare_machine None process_start) = 96.
Proof.
  exact (proj2 (failed_queries_give_default 96 bare_machine None eq_refl)
           eq_refl eq_refl).
Defined.

End ResolverFallbackWitnesses.
